(** * python-cli-task-manager: the task engine of [task_manager.py]

    A shallow embedding of [task_manager.py] (the [Task] class, the
    [TaskManager] class, [create_task], [save_tasks], [import_tasks]) and of
    the calls it makes into [utils.py].

    Conventions of the embedding.
    - A Python [str] of ASCII characters is a [string]; [str.strip],
      [str.upper] and [str.lower] are given on the ASCII repertoire, where
      Python's definitions are closed (a-z against A-Z, the ten ASCII
      white-space characters). A [str] with other characters (white space
      such as U+00A0, letters such as U+0131, lone surrogates) has no
      counterpart here, and nothing is stated about it.
    - Values read from the JSON file, and the values of the unvalidated
      attributes of a task, are [json] values. A Python [float] is a kernel
      binary64 float, so [nan] and the infinities are there, with Python's
      comparisons.
    - [Task] objects are compared by identity ([Task] defines no [__eq__]):
      an object is a location in a heap, the three lists of the manager hold
      locations, and [conclude_task] updates the heap.
    - [print] is modelled by the returned [message]; an exception by
      [Raise].
    - [json.dump] is a parameter of [save_tasks]: for each value, whether it
      writes the text or raises, and what it raises. *)

From Stdlib Require Import ZArith Floats.PrimFloat Ascii String.
From Stdlib Require Import Floats.SpecFloat Floats.FloatOps Floats.FloatAxioms.
From stdpp Require Import gmap strings list fin_maps.

#[local] Set Warnings "-register-all".
#[local] Open Scope string_scope.
#[local] Open Scope list_scope.
#[local] Open Scope stdpp_scope.

(** ** Python strings *)

Module PyStr.

(** [str.isspace] on one ASCII character: TAB, LF, VT, FF, CR, the four
    separators FS, GS, RS, US, and the space. (Beyond ASCII, Python has more
    white space; such characters do not occur in the strings here.) *)
Definition isspace (c : ascii) : bool :=
  let n := nat_of_ascii c in
  ((9 <=? n)%nat && (n <=? 13)%nat) || ((28 <=? n)%nat && (n <=? 32)%nat).

Fixpoint lstrip (s : string) : string :=
  match s with
  | EmptyString => EmptyString
  | String c s' => if isspace c then lstrip s' else s
  end.

Fixpoint rstrip (s : string) : string :=
  match s with
  | EmptyString => EmptyString
  | String c s' =>
      match rstrip s' with
      | EmptyString => if isspace c then EmptyString else String c EmptyString
      | r => String c r
      end
  end.

(** [s.strip()], for a [str] of ASCII characters *)
Definition strip (s : string) : string := rstrip (lstrip s).

Definition upper_char (c : ascii) : ascii :=
  let n := nat_of_ascii c in
  if (97 <=? n)%nat && (n <=? 122)%nat then ascii_of_nat (n - 32) else c.

Definition lower_char (c : ascii) : ascii :=
  let n := nat_of_ascii c in
  if (65 <=? n)%nat && (n <=? 90)%nat then ascii_of_nat (n + 32) else c.

Fixpoint map_chars (f : ascii → ascii) (s : string) : string :=
  match s with
  | EmptyString => EmptyString
  | String c s' => String (f c) (map_chars f s')
  end.

(** [s.upper()] and [s.lower()], for a [str] of ASCII characters *)
Definition upper : string → string := map_chars upper_char.
Definition lower : string → string := map_chars lower_char.

(** The characters of [s], each as a string of length one: what iterating
    over a [str] yields. *)
Fixpoint chars (s : string) : list string :=
  match s with
  | EmptyString => []
  | String c s' => String c EmptyString :: chars s'
  end.

End PyStr.

(** ** Enumerations *)

Inductive Operation : Set := DELETE | ADD.

Inductive Priority : Set := LOW | MID | HIGH.

Global Instance Operation_eq_dec : EqDecision Operation.
Proof. solve_decision. Defined.

Global Instance Priority_eq_dec : EqDecision Priority.
Proof. solve_decision. Defined.

(** [p.name] *)
Definition Priority_name (p : Priority) : string :=
  match p with LOW => "LOW" | MID => "MID" | HIGH => "HIGH" end.


(** [Priority[key]]: the member of that name, [None] for Python's
    [KeyError]. *)
Definition Priority_getitem (key : string) : option Priority :=
  if String.eqb key "LOW" then Some LOW
  else if String.eqb key "MID" then Some MID
  else if String.eqb key "HIGH" then Some HIGH
  else None.

(** ** Values *)

(** What [json.load] returns and [json.dump] accepts. *)
Inductive json : Type :=
| JNull
| JBool (b : bool)
| JInt (z : Z)
| JFloat (f : float)
| JStr (s : string)
| JList (l : list json)
| JDict (d : gmap string json).

(** An argument of [Task.__init__]: a plain value, or a member of
    [Priority]. *)
Inductive pyval : Type :=
| PyData (v : json)
| PyPriority (p : Priority).

(** [bool(v)], as [not v] and [if v] use it. *)
Definition truthy (v : json) : bool :=
  match v with
  | JNull => false
  | JBool b => b
  | JInt z => negb (z =? 0)%Z
  | JFloat f => negb (PrimFloat.eqb f 0%float)
  | JStr s => negb (String.eqb s "")
  | JList l => match l with [] => false | _ => true end
  | JDict d => negb (Nat.eqb (size d) 0)
  end.

(** [isinstance(v, (int, float))]; [bool] is a subclass of [int]. *)
Definition is_number (v : json) : bool :=
  match v with JBool _ | JInt _ | JFloat _ => true | _ => false end.

(** [v <= 0] for a number [v]; [True] is 1 and [False] is 0. *)
Definition le_zero (v : json) : bool :=
  match v with
  | JBool b => negb b
  | JInt z => (z <=? 0)%Z
  | JFloat f => PrimFloat.leb f 0%float
  | _ => false
  end.

(** [0 < v] for a number [v]: the number is strictly positive. *)
Definition positive_number (v : json) : bool :=
  match v with
  | JBool b => b
  | JInt z => (0 <? z)%Z
  | JFloat f => PrimFloat.ltb 0%float f
  | _ => false
  end.

(** ** Exceptions and results *)

Inductive exn : Set :=
| ValueError (msg : string)
| KeyError (key : string)
| TypeError
| AttributeError
| OverflowError
| RecursionError
| OSError.

Inductive result (A : Type) : Type :=
| Ok (a : A)
| Raise (e : exn).
Arguments Ok {A} a.
Arguments Raise {A} e.

Global Instance result_ret : MRet result := fun A a => Ok a.

Global Instance result_bind : MBind result := fun A B k r =>
  match r with
  | Ok a => k a
  | Raise e => Raise e
  end.

Definition raised {A} (r : result A) : Prop :=
  match r with Ok _ => False | Raise _ => True end.

(** ** The [Task] class *)

(** The attributes of a [Task] object. [__init__] checks [task_name] to be a
    [str] and [priority] to be a member of [Priority]; [description] is
    stored as given (a [str] from the menu, whatever the record holds on
    import), [conclude_time] is a number, and [_is_completed] is [False]
    until [conclude_task] or [_from_dict] sets it. *)
Record Task : Type := mkTask {
  task_name : string;
  description : json;
  priority : Priority;
  conclude_time : json;
  _is_completed : json
}.

(** What the program prints. *)
Inductive message : Type :=
| CompletedNow (name : string)
    (* Task '{name}' was completed successfully. *)
| AlreadyCompleted (name : string)
    (* Task '{name}' is already completed. *)
| StatusUnchanged (name : string)
    (* Task '{name}' status remains unchanged. *)
| InvalidAnswer
    (* Invalid input. Please enter 1 or 0. *)
| Removed (name : string) (priority_name : string)
    (* Task '{name}' removed from {priority_name} priority list. *)
| NotFound (name : string) (priority_name : string)
    (* Task '{name}' not found in {priority_name} priority list. *)
| Exported
    (* Tasks successfully exported to 'Task_lists.json'. *)
| SaveError
    (* Error saving tasks to file: {e} *)
| Imported
    (* Tasks successfully imported from 'Task_lists.json'. *)
| FileNotFound
    (* Task_lists.json not found. No tasks to import. *)
| DecodeError
    (* Error decoding Task_lists.json. File might be corrupted. *)
| UnexpectedError (e : exn)
    (* An unexpected error occurred during task import: {e} *).

(** [not isinstance(task_name, str) or not task_name.strip()] *)
Definition bad_name (task_name : pyval) : bool :=
  match task_name with
  | PyData (JStr s) => negb (truthy (JStr (PyStr.strip s)))
  | _ => true
  end.

(** [not isinstance(priority, Priority)] *)
Definition bad_priority (priority : pyval) : bool :=
  match priority with
  | PyPriority _ => false
  | PyData _ => true
  end.

(** [not isinstance(conclude_time, (int, float)) or conclude_time <= 0] *)
Definition bad_time (conclude_time : pyval) : bool :=
  match conclude_time with
  | PyData v => negb (is_number v) || le_zero v
  | PyPriority _ => true
  end.

(** [Task.__init__]: the three checks in the order of the source, then the
    five assignments. *)
Definition Task_init (task_name : pyval) (description : json)
    (priority : pyval) (conclude_time : pyval) : result Task :=
  if bad_name task_name then
    Raise (ValueError "Task name cannot be empty.")
  else if bad_priority priority then
    Raise (ValueError "Priority must be a valid Priority Enum member.")
  else if bad_time conclude_time then
    Raise (ValueError "Duration must be a positive number.")
  else
    match task_name, priority, conclude_time with
    | PyData (JStr name), PyPriority p, PyData t =>
        Ok (mkTask name description p t (JBool false))
    | _, _, _ => Raise TypeError (* not reached: excluded by the checks *)
    end.

(** [Task.conclude_task]: the task afterwards, and what is printed. *)
Definition conclude_task (self : Task) : Task * message :=
  if negb (truthy (_is_completed self)) then
    (mkTask (task_name self) (description self) (priority self)
       (conclude_time self) (JBool true),
     CompletedNow (task_name self))
  else
    (self, AlreadyCompleted (task_name self)).

(** ** The Pomodoro run *)

(** A call of [utils.timer_logic(message, time_value)], named after the
    place that makes it: the work interval, or the break. *)
Inductive interval : Type :=
| Work (label : string) (minutes : json)
| Break (label : string) (minutes : json).

(** [range(n)] *)
Definition range (n : Z) : list Z := Z.of_nat <$> seq 0 (Z.to_nat n).

(** The two calls of [utils.timer_logic] in the loop. *)
Definition work_interval (self : Task) : interval :=
  Work ("Work interval for '" +:+ task_name self +:+ "'") (conclude_time self).

Definition break_interval (prompt_message : string)
    (break_time_minutes : json) : interval :=
  Break prompt_message break_time_minutes.

(** The body of the [for] loop of [start_pomodoro], for one [i]. *)
Definition pomodoro_cycle (self : Task) (break_time_minutes : json)
    (prompt_message : string) (repeat_times : Z) (i : Z) : list interval :=
  work_interval self
  :: (if (i <? repeat_times - 1)%Z
      then [break_interval prompt_message break_time_minutes]
      else []).

(** The [for] loop of [start_pomodoro]: the calls of [utils.timer_logic]
    that it makes, in order, when each of them returns. A call that does not
    return keeps the loop where it is: [pomodoro_run] below has the loop on
    a clock. *)
Definition pomodoro_cycles (self : Task) (break_time_minutes : json)
    (prompt_message : string) (repeat_times : Z) : list interval :=
  concat (pomodoro_cycle self break_time_minutes prompt_message repeat_times
            <$> range repeat_times).

(** The [while True] loop that ends [start_pomodoro]. An answer is what
    [int(answer)] gives: [Some n], or [None] when it raises [ValueError].
    The loop reads answers until one parses; [None] as a result is the
    program waiting for an answer that the list does not hold. *)
Fixpoint pomodoro_prompt (self : Task) (answers : list (option Z))
    : option (Task * list message) :=
  match answers with
  | [] => None
  | None :: rest =>
      '(t, out) ← pomodoro_prompt self rest;
      Some (t, InvalidAnswer :: out)
  | Some n :: _ =>
      if (n =? 1)%Z then
        let '(t, m) := conclude_task self in Some (t, [m])
      else if (n =? 0)%Z then
        Some (self, [StatusUnchanged (task_name self)])
      else Some (self, [])
  end.

(** [Task.start_pomodoro], for a run whose timers return: the calls that
    were made, and the closing question. *)
Definition start_pomodoro (self : Task) (break_time_minutes : json)
    (prompt_message : string) (repeat_times : Z) (answers : list (option Z))
    : option (list interval * Task * list message) :=
  let timers :=
    pomodoro_cycles self break_time_minutes prompt_message repeat_times in
  '(t, out) ← pomodoro_prompt self answers;
  Some (timers, t, out).

(** [Task._to_dict] *)
Definition _to_dict (self : Task) : json :=
  JDict {[ "task_name" := JStr (task_name self);
           "description" := description self;
           "priority" := JStr (Priority_name (priority self));
           "conclude_time" := conclude_time self;
           "_is_completed" := _is_completed self ]}.

(** [data[key]] for a string [key]: only a [dict] can be indexed by one. *)
Definition getitem (data : json) (key : string) : result json :=
  match data with
  | JDict d =>
      match d !! key with
      | Some v => Ok v
      | None => Raise (KeyError key)
      end
  | _ => Raise TypeError
  end.

(** [v.upper()]: only a [str] has the method. *)
Definition upper_of (v : json) : result string :=
  match v with
  | JStr s => Ok (PyStr.upper s)
  | _ => Raise AttributeError
  end.

(** [Priority[key]] *)
Definition Priority_lookup (key : string) : result Priority :=
  match Priority_getitem key with
  | Some p => Ok p
  | None => Raise (KeyError key)
  end.

(** [Task._from_dict]: the arguments of the constructor are evaluated from
    left to right, the constructor runs, and the flag is then read and
    stored as it is. *)
Definition _from_dict (data : json) : result Task :=
  name ← getitem data "task_name";
  descr ← getitem data "description";
  prio ← getitem data "priority";
  key ← upper_of prio;
  p ← Priority_lookup key;
  time ← getitem data "conclude_time";
  task ← Task_init (PyData name) descr (PyPriority p) (PyData time);
  flag ← getitem data "_is_completed";
  Ok (mkTask (task_name task) (description task) (priority task)
        (conclude_time task) flag).

(** ** The [TaskManager] class *)

(** The identity of a [Task] object: its index in the heap. *)
Definition loc : Set := nat.

(** The three lists hold the objects themselves, that is, their
    identities. *)
Record TaskManager : Type := mkManager {
  task_low : list loc;
  task_mid : list loc;
  task_high : list loc
}.

(** [TaskManager.__init__] *)
Definition TaskManager_init : TaskManager := mkManager [] [] [].

(** The dictionary [{"low": self.task_low, "mid": self.task_mid,
    "high": self.task_high}] indexed by [key]. *)
Definition target_list (self : TaskManager) (key : string)
    : result (list loc) :=
  if String.eqb key "low" then Ok (task_low self)
  else if String.eqb key "mid" then Ok (task_mid self)
  else if String.eqb key "high" then Ok (task_high self)
  else Raise (KeyError key).

(** The list found under [key] is the manager's own list object: a
    change of it is a change of the manager. *)
Definition set_target_list (self : TaskManager) (key : string)
    (l : list loc) : TaskManager :=
  if String.eqb key "low" then mkManager l (task_mid self) (task_high self)
  else if String.eqb key "mid" then mkManager (task_low self) l (task_high self)
  else if String.eqb key "high" then mkManager (task_low self) (task_mid self) l
  else self.

(** [task in target_list]: [Task] has no [__eq__], so membership is
    identity. *)
Definition contains (target : list loc) (task : loc) : bool :=
  bool_decide (task ∈ target).

(** [target_list.remove(task)]: the first occurrence goes. *)
Fixpoint remove_first (task : loc) (target : list loc) : list loc :=
  match target with
  | [] => []
  | x :: rest =>
      if decide (task = x) then rest else x :: remove_first task rest
  end.

(** [TaskManager.list_manager(task, operation)], for the object [task]
    whose attributes are [t]. *)
Definition list_manager (self : TaskManager) (task : loc) (t : Task)
    (operation : Operation) : result (TaskManager * option message) :=
  let key := PyStr.lower (Priority_name (priority t)) in
  target ← target_list self key;
  if decide (operation = DELETE) then
    if contains target task then
      Ok (set_target_list self key (remove_first task target),
          Some (Removed (task_name t) (Priority_name (priority t))))
    else
      Ok (self, Some (NotFound (task_name t) (Priority_name (priority t))))
  else
    Ok (set_target_list self key (target ++ [task]), None).

(** The list of the manager that belongs to a priority. *)
Definition bucket (self : TaskManager) (p : Priority) : list loc :=
  match p with
  | LOW => task_low self
  | MID => task_mid self
  | HIGH => task_high self
  end.

(** ** The program state *)

(** The [Task] objects that exist, and the module's manager [lm]. *)
Record World : Type := mkWorld {
  heap : list Task;
  lm : TaskManager
}.

Definition initial : World := mkWorld [] TaskManager_init.

(** A new object: its identity is the next free index. *)
Definition alloc (h : list Task) (t : Task) : list Task * loc :=
  (h ++ [t], length h).

(** [create_task]: construct, add to [lm], return the object. *)
Definition create_task (w : World) (name : pyval) (descr : json)
    (prio : pyval) (time : pyval) : result (World * loc) :=
  t ← Task_init name descr prio time;
  let '(h, task) := alloc (heap w) t in
  '(m, _) ← list_manager (lm w) task t ADD;
  Ok (mkWorld h m, task).

(** [task.conclude_task()] on the object [task]; [None] when there is no
    such object. *)
Definition conclude_at (w : World) (task : loc) : option (World * message) :=
  t ← heap w !! task;
  let '(t', m) := conclude_task t in
  Some (mkWorld (<[task := t']> (heap w)) (lm w), m).

(** ** Persistence *)

(** The file [Task_lists.json], by what reading it comes to: it is absent
    ([FileNotFoundError]); its text is not JSON ([json.JSONDecodeError]), as
    is the text of a write that was cut short; opening or [json.load] raises
    another exception [e] (a file that may not be read, bytes that are not
    UTF-8, an integer of more digits than [int] converts); or [json.load]
    returns the value [data]. What [json.dump] has written in full,
    [json.load] reads back as the same value; the text in between is not
    modelled. *)
Inductive file : Type :=
| NoFile
| Garbage
| Unreadable (e : exn)
| Document (data : json).

(** The attributes of the objects of a list; [None] when a location is
    not an object. *)
Definition tasks_at (h : list Task) (ls : list loc) : option (list Task) :=
  mapM (h !!.) ls.

(** The dictionary [data] that [save_tasks] builds. *)
Definition encode (w : World) : option json :=
  high ← tasks_at (heap w) (task_high (lm w));
  mid ← tasks_at (heap w) (task_mid (lm w));
  low ← tasks_at (heap w) (task_low (lm w));
  Some (JDict {[ "high" := JList (_to_dict <$> high);
                 "mid" := JList (_to_dict <$> mid);
                 "low" := JList (_to_dict <$> low) ]}).

(** [save_tasks]. [writable] tells whether the file can be opened for
    writing: when it cannot, [open] raises [IOError] and the file is as it
    was. [json_dump data] is what [json.dump(data, file, indent=4,
    ensure_ascii=False)] does once the file is open, and so emptied: [None]
    when it writes the whole text, [Some e] when it raises [e], which leaves
    the text written so far. The only handler is [except IOError] ([OSError]
    under its older name): any other exception leaves [save_tasks]. The
    result is the file afterwards with what is printed, or with the
    exception that escapes. *)
Definition save_tasks (json_dump : json → option exn) (w : World)
    (old : file) (writable : bool) : option (file * result message) :=
  data ← encode w;
  Some (if writable then
          match json_dump data with
          | None => (Document data, Ok Exported)
          | Some OSError => (Garbage, Ok SaveError)
          | Some e => (Garbage, Raise e)
          end
        else (old, Ok SaveError)).

(** [data.get(key, [])]: only a [dict] has the method. *)
Definition dict_get (data : json) (key : string) : result json :=
  match data with
  | JDict d => Ok (default (JList []) (d !! key))
  | _ => Raise AttributeError
  end.

(** What a [for] loop over [v] visits: the elements of a list, the
    characters of a string, the keys of a dictionary; anything else is not
    iterable. *)
Definition iterate (v : json) : result (list json) :=
  match v with
  | JList l => Ok l
  | JStr s => Ok (JStr <$> PyStr.chars s)
  | JDict d => Ok (JStr <$> (map_to_list d).*1)
  | _ => Raise TypeError
  end.

(** One of the three loops of [import_tasks]: every record becomes a new
    object that is added to [lm]; the first exception ends the loop, and
    what was added before stays. *)
Fixpoint import_loop (items : list json) (w : World) : World * option exn :=
  match items with
  | [] => (w, None)
  | task_data :: rest =>
      match _from_dict task_data with
      | Raise e => (w, Some e)
      | Ok t =>
          let '(h, task) := alloc (heap w) t in
          match list_manager (lm w) task t ADD with
          | Raise e => (mkWorld h (lm w), Some e)
          | Ok (m, _) => import_loop rest (mkWorld h m)
          end
      end
  end.

(** [for task_data in data.get(key, []): ...] *)
Definition import_key (data : json) (key : string) (w : World)
    : World * option exn :=
  match v ← dict_get data key; iterate v with
  | Raise e => (w, Some e)
  | Ok items => import_loop items w
  end.

(** The body of the [try] of [import_tasks] once the file is read. *)
Definition import_document (data : json) (w : World) : World * option exn :=
  match import_key data "high" w with
  | (w1, Some e) => (w1, Some e)
  | (w1, None) =>
      match import_key data "mid" w1 with
      | (w2, Some e) => (w2, Some e)
      | (w2, None) => import_key data "low" w2
      end
  end.

(** [import_tasks]: every exception is caught and reported. *)
Definition import_tasks (f : file) (w : World) : World * message :=
  match f with
  | NoFile => (w, FileNotFound)
  | Garbage => (w, DecodeError)
  | Unreadable e => (w, UnexpectedError e)
  | Document data =>
      match import_document data w with
      | (w', None) => (w', Imported)
      | (w', Some e) => (w', UnexpectedError e)
      end
  end.

(** ** Notions the statements use *)

(** What [__init__] guarantees of the object it builds, and no method
    changes afterwards. *)
Definition valid_task (t : Task) : Prop :=
  bad_name (PyData (JStr (task_name t))) = false
  ∧ bad_time (PyData (conclude_time t)) = false.

(** The attributes of the objects in the list of priority [p]. *)
Definition bucket_tasks (w : World) (p : Priority) : option (list Task) :=
  tasks_at (heap w) (bucket (lm w) p).

(** Every object was built by [__init__], and every entry of a list is an
    object of that list's priority. *)
Definition store_ok (w : World) : Prop :=
  Forall valid_task (heap w)
  ∧ ∀ p task, task ∈ bucket (lm w) p →
      ∃ t, heap w !! task = Some t ∧ priority t = p.

(** One action of the program on its state: a [Task] is constructed,
    [list_manager] adds or deletes an existing object, an existing object
    is concluded, or a file is imported. *)
Inductive step : World → World → Prop :=
| step_construct w name descr prio time t :
    Task_init name descr prio time = Ok t →
    step w (mkWorld (alloc (heap w) t).1 (lm w))
| step_list_manager w task t operation m out :
    heap w !! task = Some t →
    list_manager (lm w) task t operation = Ok (m, out) →
    step w (mkWorld (heap w) m)
| step_conclude w task w' out :
    conclude_at w task = Some (w', out) →
    step w w'
| step_import w f :
    step w (import_tasks f w).1.

(** The states the program can be in, from the empty store. *)
Definition reachable (w : World) : Prop := rtc step initial w.

(** [task] is appended to the list of priority [p]. *)
Definition push (self : TaskManager) (p : Priority) (task : loc)
    : TaskManager :=
  match p with
  | LOW => mkManager (task_low self ++ [task]) (task_mid self) (task_high self)
  | MID => mkManager (task_low self) (task_mid self ++ [task]) (task_high self)
  | HIGH => mkManager (task_low self) (task_mid self) (task_high self ++ [task])
  end.

(** The list of priority [p] becomes [l]. *)
Definition with_bucket (self : TaskManager) (p : Priority) (l : list loc)
    : TaskManager :=
  match p with
  | LOW => mkManager l (task_mid self) (task_high self)
  | MID => mkManager (task_low self) l (task_high self)
  | HIGH => mkManager (task_low self) (task_mid self) l
  end.

(** A new object with the attributes [t] is added to the store. *)
Definition add_task (w : World) (t : Task) : World :=
  mkWorld (heap w ++ [t]) (push (lm w) (priority t) (length (heap w))).

Definition add_tasks (w : World) (ts : list Task) : World :=
  foldl add_task w ts.

(** [n] calls of [conclude_task] in a row: the task at the end and the
    messages in order. *)
Fixpoint conclude_times (n : nat) (t : Task) : Task * list message :=
  match n with
  | O => (t, [])
  | S n' =>
      let '(t1, m) := conclude_task t in
      let '(t2, ms) := conclude_times n' t1 in
      (t2, m :: ms)
  end.



(** [s] is [name] up to the case of its letters. *)
Fixpoint case_variant (s name : string) : bool :=
  match s, name with
  | EmptyString, EmptyString => true
  | String c s', String c' name' =>
      (Ascii.eqb c (PyStr.upper_char c') || Ascii.eqb c (PyStr.lower_char c'))
      && case_variant s' name'
  | _, _ => false
  end.

(** The string names no member of [Priority], in whatever case. *)
Definition unrecognized (s : string) : Prop :=
  Priority_getitem (PyStr.upper s) = None.

(** A record whose priority is such a string. *)
Definition unrecognized_record (r : json) : Prop :=
  ∃ d s, r = JDict d ∧ d !! "priority" = Some (JStr s) ∧ unrecognized s.

(** The three keys, in the order [import_tasks] reads them. *)
Definition keys : list string := ["high"; "mid"; "low"].

(** The sequence a document has under a key; none when the key is
    absent. *)
Definition listed (d : gmap string json) (key : string) : list json :=
  match d !! key with
  | Some (JList l) => l
  | _ => []
  end.

(** The records of a document in the order [import_tasks] reads them. *)
Definition records (d : gmap string json) : list json :=
  listed d "high" ++ listed d "mid" ++ listed d "low".

(** What the loop of [import_tasks] over one key goes through: the items of
    [data.get(key, [])], and the exception that ends the import there when
    that value cannot be iterated. *)
Definition walk_key (d : gmap string json) (key : string)
    : list json * option exn :=
  match iterate (default (JList []) (d !! key)) with
  | Ok items => (items, None)
  | Raise e => ([], Some e)
  end.

(** The same for the three loops one after the other: every item that
    [import_tasks] comes to if no item fails, up to the first value that
    cannot be iterated, and the exception of that value. For a document
    whose keys hold sequences these are its records. *)
Definition walk (d : gmap string json) : list json * option exn :=
  match walk_key d "high" with
  | (high, Some e) => (high, Some e)
  | (high, None) =>
      match walk_key d "mid" with
      | (mid, Some e) => (high ++ mid, Some e)
      | (mid, None) =>
          match walk_key d "low" with
          | (low, stop) => (high ++ mid ++ low, stop)
          end
      end
  end.

(** The document with an empty sequence under every key it lacks. *)
Definition with_missing_keys (d : gmap string json) : gmap string json :=
  d ∪ {[ "high" := JList []; "mid" := JList []; "low" := JList [] ]}.

(** A record as [save_tasks] writes them: the five fields, a name that is
    a non-blank string, a priority name in any case, a duration the
    constructor accepts. *)
Definition well_formed_record (r : json) : Prop :=
  ∃ d name descr s p time flag,
    r = JDict d
    ∧ d !! "task_name" = Some (JStr name)
    ∧ d !! "description" = Some descr
    ∧ d !! "priority" = Some (JStr s)
    ∧ d !! "conclude_time" = Some time
    ∧ d !! "_is_completed" = Some flag
    ∧ bad_name (PyData (JStr name)) = false
    ∧ Priority_getitem (PyStr.upper s) = Some p
    ∧ bad_time (PyData time) = false.

(** Each of the three keys that is present has a sequence of well-formed
    records. *)
Definition well_formed_document (d : gmap string json) : Prop :=
  ∀ key v, key ∈ keys → d !! key = Some v →
    ∃ l, v = JList l ∧ Forall well_formed_record l.

(** [ts] are the tasks that [_from_dict] builds from the records [rs]. *)
Definition decodes (rs : list json) (ts : list Task) : Prop :=
  Forall2 (λ r t, _from_dict r = Ok t) rs ts.

(** Two objects that are equal in all five fields. *)
Definition twin_heap : list Task :=
  [ mkTask "report" (JStr "Q3") HIGH (JFloat 25) (JBool false);
    mkTask "report" (JStr "Q3") HIGH (JFloat 25) (JBool false) ].

(** The first of the two was created by [create_task]; the second was
    only constructed, with the same arguments. *)
Definition twin_world : World := mkWorld twin_heap (mkManager [] [] [0]).

(** A document whose second record has the priority ["urgent"]. *)
Definition urgent_document : gmap string json :=
  {[ "high" := JList [
    JDict {[ "task_name" := JStr "report"; "description" := JStr "Q3";
             "priority" := JStr "HIGH"; "conclude_time" := JFloat 25;
             "_is_completed" := JBool false ]};
    JDict {[ "task_name" := JStr "call"; "description" := JStr "";
             "priority" := JStr "urgent"; "conclude_time" := JInt 5;
             "_is_completed" := JBool false ]} ] ]}.

(** The store after ["report"] was created and ["mail"] was created and
    concluded. *)
Definition example_world : World :=
  mkWorld [ mkTask "report" (JStr "Q3") HIGH (JFloat 25) (JBool false);
            mkTask "mail" (JStr "") LOW (JInt 10) (JBool true) ]
    (mkManager [1] [] [0]).

(** A record whose priority is written in mixed case. *)
Definition mixed_case_record : gmap string json :=
  {[ "task_name" := JStr "report"; "description" := JStr "Q3";
     "priority" := JStr "hiGh"; "conclude_time" := JFloat 25;
     "_is_completed" := JBool true ]}.

(** A document that has the key ["mid"] only. *)
Definition mid_only_document : gmap string json :=
  {[ "mid" := JList [
    JDict {[ "task_name" := JStr "mail"; "description" := JStr "";
             "priority" := JStr "mid"; "conclude_time" := JInt 10;
             "_is_completed" := JBool true ]} ] ]}.

(** The dictionary with the records of three lists of tasks under the
    three keys. *)
Definition document_of (highs mids lows : list Task) : json :=
  JDict {[ "high" := JList (_to_dict <$> highs);
           "mid" := JList (_to_dict <$> mids);
           "low" := JList (_to_dict <$> lows) ]}.

(** An [int] of more than 4300 digits: CPython, as it is set up when it
    starts, refuses to convert such an [int] to text, in [str], in a
    formatted string and in [json.dump], and raises this [ValueError]. *)
Definition exceeds_digits (z : Z) : bool := (10 ^ 4300 <=? Z.abs z)%Z.

Definition digits_error : exn :=
  ValueError
    "Exceeds the limit (4300 digits) for integer string conversion; use sys.set_int_max_str_digits() to increase the limit".

Fixpoint holds_long_int (v : json) : bool :=
  match v with
  | JInt z => exceeds_digits z
  | JList l => existsb holds_long_int l
  | JDict d => map_fold (λ _ x found, holds_long_int x || found) false d
  | _ => false
  end.

(** A [json.dump] that raises on such an [int], as CPython's does, and
    writes every other value: one instance of the parameter of
    [save_tasks]. *)
Definition digit_limit_dump (data : json) : option exn :=
  if holds_long_int data then Some digits_error else None.

(** A task whose duration is the [int] [10 ** 4300], of 4301 digits, and
    the store after [create_task] built it. *)
Definition long_task : Task :=
  mkTask "archive" (JStr "") LOW (JInt (10 ^ 4300)) (JBool false).

Definition long_world : World := mkWorld [long_task] (mkManager [0] [] []).

(** ** The menu of [main.py] *)

(** What a run of a function of [main.py] comes to: it returns; an
    exception leaves it that no [except] clause catches; or it has no
    result, because [input()] finds nothing left to read (or because an
    entry of a list is no object, which no state of the program has). *)
Inductive outcome (A : Type) : Type :=
| Returns (a : A)
| Escapes (e : exn)
| Blocks.
Arguments Returns {A} a.
Arguments Escapes {A} e.
Arguments Blocks {A}.

Global Instance outcome_ret : MRet outcome := fun A a => Returns a.

Global Instance outcome_bind : MBind outcome := fun A B k r =>
  match r with
  | Returns a => k a
  | Escapes e => Escapes e
  | Blocks => Blocks
  end.

Definition lift {A} (o : option A) : outcome A :=
  match o with
  | Some a => Returns a
  | None => Blocks
  end.

(** What appears on the terminal, one constructor for each [print] (or
    group of [print]s) of [main.py], and [Said] for what [task_manager.py]
    prints. The prompts of [input] are not recorded. *)
Inductive screen : Type :=
| Cleared
    (* clear_terminal() *)
| Menu
    (* Task Manager, and the seven options *)
| Heading (title : string)
    (* Create New Task / Start Pomodoro / Delete Task *)
| PriorityMenu
    (* Priority: 1. Low 2. Medium 3. High *)
| Lists (low mid high : list Task)
    (* lm.show_lists(): the three lists, low, mid, high *)
| Said (m : message)
| Timers (timers : list interval)
    (* the cycles of task.start_pomodoro *)
| CyclesFinished
    (* Pomodoro cycles finished. *)
| InvalidName
    (* Invalid name. Please provide a valid name. *)
| InvalidDescription
    (* Invalid description. Please provide a valid description. *)
| InvalidPriority
    (* Invalid priority. Task not created. *)
| InvalidTime
    (* Invalid time. Task not created. *)
| TaskCreated (task : loc)
    (* Task created successfully: and print(task) *)
| TasksSaved
    (* Tasks saved successfully! *)
| TasksImported
    (* Tasks imported successfully! *)
| InvalidInput
    (* Invalid input. Operation canceled. *)
| TaskDeleted
    (* Task deleted successfully. *)
| TaskNotFound
    (* Task not found. *)
| Exiting
    (* Exiting... *)
| InvalidOption
    (* Invalid option. Please try again. *).

(** The state [main.py] works on: the objects and the manager [lm], and
    the file [Task_lists.json]. *)
Record Session : Type := mkSession {
  world : World;
  disk : file
}.

(** Whether the loop of [main_menu] goes on. *)
Inductive next : Set := Continue | Break_loop.

(** [input(...)]: the next line that was typed. *)
Definition read (inputs : list string) : outcome (string * list string) :=
  match inputs with
  | [] => Blocks
  | line :: rest => Returns (line, rest)
  end.

(** The objects of a list with their attributes. *)
Definition objects_at (h : list Task) (ls : list loc)
    : option (list (loc * Task)) :=
  mapM (λ task, t ← h !! task; Some (task, t)) ls.

(** What [for task_list in [lm.task_low, lm.task_mid, lm.task_high]:
    for task in task_list] visits, in order. *)
Definition entries (w : World) : option (list (loc * Task)) :=
  low ← objects_at (heap w) (task_low (lm w));
  mid ← objects_at (heap w) (task_mid (lm w));
  high ← objects_at (heap w) (task_high (lm w));
  Some (low ++ mid ++ high).

(** [task.task_name == name] *)
Definition named (name : string) (e : loc * Task) : Prop :=
  task_name e.2 = name.

Global Instance named_dec (name : string) (e : loc * Task) :
  Decision (named name e).
Proof. unfold named. apply _. Defined.

(** The first object the two loops come to whose name is [name]. *)
Definition find_task (w : World) (name : string)
    : outcome (option (loc * Task)) :=
  es ← lift (entries w);
  Returns (snd <$> list_find (named name) es).

(** [TaskManager.show_lists] *)
Definition show_lists (w : World) : outcome screen :=
  low ← lift (bucket_tasks w LOW);
  mid ← lift (bucket_tasks w MID);
  high ← lift (bucket_tasks w HIGH);
  Returns (Lists low mid high).

(** The lines that the closing question of [Task.start_pomodoro] leaves
    unread: it reads up to and with the first answer that is an integer. *)
Fixpoint unread (answers : list (option Z)) (inputs : list string)
    : list string :=
  match answers, inputs with
  | None :: answers', _ :: inputs' => unread answers' inputs'
  | Some _ :: _, _ :: inputs' => inputs'
  | _, _ => []
  end.

(** The [if]/[elif] chain of [create_new_task] on the priority. *)
Definition priority_of_choice (priority_choice : string) : option Priority :=
  if String.eqb priority_choice "1" then Some LOW
  else if String.eqb priority_choice "2" then Some MID
  else if String.eqb priority_choice "3" then Some HIGH
  else None.

(** [Task.start_pomodoro], under the name it has as a method, for use beside
    the function [start_pomodoro] of [main.py]. *)
Definition Task_start_pomodoro := start_pomodoro.

Module Main.

Section Menu.

(** [float(text)] and [int(text)] on what was typed: [None] when they
    raise [ValueError]. [writable] tells whether [Task_lists.json] can be
    opened for writing, and [json_dump] what [json.dump] does with a value,
    as for [save_tasks]. *)
Variable float_of : string → option float.
Variable int_of : string → option Z.
Variable writable : bool.
Variable json_dump : json → option exn.

(** [create_new_task] *)
Definition create_new_task (inputs : list string) (s : Session)
    : outcome (Session * list screen * list string) :=
  '(name, inputs) ← read inputs;
  if String.eqb (PyStr.strip name) "" then
    '(_, inputs) ← read inputs;
    Returns (s, [Cleared; Heading "Create New Task"; InvalidName], inputs)
  else
    '(description, inputs) ← read inputs;
    if String.eqb (PyStr.strip description) "" then
      '(_, inputs) ← read inputs;
      Returns (s, [Cleared; Heading "Create New Task"; InvalidDescription],
               inputs)
    else
      '(priority_choice, inputs) ← read inputs;
      match priority_of_choice priority_choice with
      | None =>
          '(_, inputs) ← read inputs;
          Returns (s, [Cleared; Heading "Create New Task"; PriorityMenu;
                       InvalidPriority], inputs)
      | Some priority =>
          '(text, inputs) ← read inputs;
          '(s', out) ←
            match float_of text with
            | None => Returns (s, [InvalidTime])
            | Some conclude_time =>
                match create_task (world s) (PyData (JStr name))
                        (JStr description) (PyPriority priority)
                        (PyData (JFloat conclude_time)) with
                | Ok (w, task) =>
                    Returns (mkSession w (disk s), [TaskCreated task])
                | Raise (ValueError _) => Returns (s, [InvalidTime])
                | Raise e => Escapes e
                end
            end;
          '(_, inputs) ← read inputs;
          Returns (s', [Cleared; Heading "Create New Task"; PriorityMenu]
                       ++ out, inputs)
      end.

(** [start_pomodoro] of [main.py] *)
Definition start_pomodoro (inputs : list string) (s : Session)
    : outcome (Session * list screen * list string) :=
  lists ← show_lists (world s);
  '(name, inputs) ← read inputs;
  found ← find_task (world s) name;
  match found with
  | Some (task, t) =>
      '(break_text, inputs) ← read inputs;
      match float_of break_text with
      | None =>
          '(_, inputs) ← read inputs;
          Returns (s, [Cleared; Heading "Start Pomodoro"; lists; InvalidInput],
                   inputs)
      | Some break_time =>
          '(cycles_text, inputs) ← read inputs;
          match int_of cycles_text with
          | None =>
              '(_, inputs) ← read inputs;
              Returns (s, [Cleared; Heading "Start Pomodoro"; lists;
                           InvalidInput], inputs)
          | Some repeat_times =>
              let answers := (λ a, int_of (PyStr.strip a)) <$> inputs in
              '(timers, t', out) ←
                lift (Task_start_pomodoro t (JFloat break_time) "Break"
                        repeat_times answers);
              Returns
                (mkSession
                   (mkWorld (<[task := t']> (heap (world s))) (lm (world s)))
                   (disk s),
                 [Cleared; Heading "Start Pomodoro"; lists; Timers timers;
                  CyclesFinished] ++ (Said <$> out),
                 unread answers inputs)
          end
      end
  | None =>
      '(_, inputs) ← read inputs;
      Returns (s, [Cleared; Heading "Start Pomodoro"; lists; TaskNotFound],
               inputs)
  end.

(** [delete_task] *)
Definition delete_task (inputs : list string) (s : Session)
    : outcome (Session * list screen * list string) :=
  lists ← show_lists (world s);
  '(name, inputs) ← read inputs;
  found ← find_task (world s) name;
  match found with
  | Some (task, t) =>
      match list_manager (lm (world s)) task t DELETE with
      | Raise e => Escapes e
      | Ok (m, said) =>
          '(_, inputs) ← read inputs;
          Returns (mkSession (mkWorld (heap (world s)) m) (disk s),
                   [Cleared; Heading "Delete Task"; lists]
                   ++ (Said <$> option_list said) ++ [TaskDeleted],
                   inputs)
      end
  | None =>
      '(_, inputs) ← read inputs;
      Returns (s, [Cleared; Heading "Delete Task"; lists; TaskNotFound],
               inputs)
  end.

(** The [if]/[elif] chain of [main_menu] for one choice. No call is inside
    a [try]: what [save_tasks] does not catch leaves [main_menu]. *)
Definition menu_item (choice : string) (inputs : list string) (s : Session)
    : outcome (next * Session * list screen * list string) :=
  if String.eqb choice "1" then
    '(s', out, inputs) ← create_new_task inputs s;
    Returns (Continue, s', out, inputs)
  else if String.eqb choice "2" then
    lists ← show_lists (world s);
    '(_, inputs) ← read inputs;
    Returns (Continue, s, [lists], inputs)
  else if String.eqb choice "3" then
    '(f, saved) ← lift (save_tasks json_dump (world s) (disk s) writable);
    match saved with
    | Raise e => Escapes e
    | Ok said =>
        '(_, inputs) ← read inputs;
        Returns (Continue, mkSession (world s) f, [Said said; TasksSaved],
                 inputs)
    end
  else if String.eqb choice "4" then
    let '(w, said) := import_tasks (disk s) (world s) in
    '(_, inputs) ← read inputs;
    Returns (Continue, mkSession w (disk s), [Said said; TasksImported], inputs)
  else if String.eqb choice "5" then
    '(s', out, inputs) ← start_pomodoro inputs s;
    Returns (Continue, s', out, inputs)
  else if String.eqb choice "6" then
    '(s', out, inputs) ← delete_task inputs s;
    Returns (Continue, s', out, inputs)
  else if String.eqb choice "7" then
    Returns (Break_loop, s, [Exiting], inputs)
  else
    '(_, inputs) ← read inputs;
    Returns (Continue, s, [InvalidOption], inputs).

(** The [while True] loop of [main_menu], for at most [fuel] choices. *)
Fixpoint main_menu_loop (fuel : nat) (inputs : list string) (s : Session)
    : outcome (Session * list screen * list string) :=
  match fuel with
  | O => Blocks
  | S fuel' =>
      '(choice, inputs) ← read inputs;
      '(continue, s', out, inputs) ← menu_item choice inputs s;
      match continue with
      | Break_loop => Returns (s', [Cleared; Menu] ++ out, inputs)
      | Continue =>
          '(s'', out', inputs) ← main_menu_loop fuel' inputs s';
          Returns (s'', [Cleared; Menu] ++ out ++ out', inputs)
      end
  end.

(** [main_menu]: every choice reads a line, so as many turns as there are
    lines is all the loop can take. *)
Definition main_menu (inputs : list string) (s : Session)
    : outcome (Session * list screen * list string) :=
  main_menu_loop (length inputs) inputs s.

End Menu.

End Main.


(** A run of one of the three functions [create_new_task],
    [start_pomodoro], [delete_task] on [inputs]: no exception of
    [task_manager.py] leaves it and, if it returns, it leaves a store the
    program can be in and has read no more than there was. *)
Definition safe (inputs : list string)
    (r : outcome (Session * list screen * list string)) : Prop :=
  match r with
  | Returns (s', _, rest) =>
      reachable (world s') ∧ (length rest ≤ length inputs)%nat
  | Escapes _ => False
  | Blocks => True
  end.

(** One turn of the loop, when it returns; only the exit prints
    [Exiting]. *)
Definition safe_item (inputs : list string)
    (r : outcome (next * Session * list screen * list string)) : Prop :=
  match r with
  | Returns (continue, s', out, rest) =>
      reachable (world s') ∧ (length rest ≤ length inputs)%nat
      ∧ (continue = Break_loop → out = [Exiting])
  | Escapes _ => True
  | Blocks => True
  end.

(** Stand-ins for [float] and [int] on the lines of the examples. *)
Definition float_of_example (text : string) : option float :=
  if String.eqb text "25" then Some 25%float
  else if String.eqb text "5" then Some 5%float
  else None.

Definition int_of_example (text : string) : option Z :=
  if String.eqb text "1" then Some 1%Z
  else if String.eqb text "2" then Some 2%Z
  else None.

(** A session on [example_world], with no file yet. *)
Definition example_session : Session := mkSession example_world NoFile.

(** ** The countdown of [utils.py] *)

(** What [timer_logic] prints; each line of the countdown and the closing
    line come after a [clear_terminal()]. The remaining time is kept as the
    number that is formatted. *)
Inductive tick : Type :=
| Refused
    (* Timer duration must be positive. *)
| Remaining (message : string) (minutes : float)
    (* {message} Remaining: {minutes:.2f} minutes *)
| TimesUp (message : string)
    (* {message} Time's up! *).

(** The [while] loop of [timer_logic]. [clock] holds what the successive
    calls of [time.time()] return; [time.sleep(1)] only lets it advance.
    The loop reads the clock for its test and once more in its body; [None]
    is a run that is still counting down when the readings end. *)
Fixpoint countdown (message : string) (end_time : float) (clock : list float)
    : option (list tick * list float) :=
  match clock with
  | [] => None
  | now :: clock' =>
      if PrimFloat.ltb now end_time then
        match clock' with
        | [] => None
        | now' :: clock'' =>
            '(out, rest) ← countdown message end_time clock'';
            Some (Remaining message
                    (PrimFloat.div (PrimFloat.sub end_time now') 60) :: out,
                  rest)
        end
      else Some ([TimesUp message], clock')
  end.

(** [utils.timer_logic], for a duration that is a [float] as its signature
    says. *)
Definition timer_logic (message : string) (time_value : float)
    (clock : list float) : option (list tick * list float) :=
  let total_seconds := PrimFloat.mul time_value 60 in
  if PrimFloat.leb total_seconds 0 then Some ([Refused], clock)
  else
    match clock with
    | [] => None
    | now :: clock' =>
        countdown message (PrimFloat.add now total_seconds) clock'
    end.

(** A reading of the clock is a finite number, as [time.time()] gives. *)
Definition finite_reading (t : float) : bool :=
  match Prim2SF t with
  | S754_zero _ | S754_finite _ _ _ => true
  | _ => false
  end.

(** ** The Pomodoro run on a clock *)

(** The conversion of an [int] to a [float] that [float + int] makes: the
    nearest float, ties to even; [None] is [OverflowError], for an [int]
    beyond the range of a [float]. *)
Definition int_to_float (z : Z) : option float :=
  match binary_normalize prec emax z 0 false with
  | S754_infinity _ => None
  | x => Some (SF2Prim x)
  end.

(** [utils.timer_logic] for a duration that is an [int]: the product
    [time_value * 60] and the test [<= 0] are exact, the sum with
    [time.time()] is a [float], and the loop is the same. *)
Definition timer_logic_int (message : string) (time_value : Z)
    (clock : list float) : outcome (list tick * list float) :=
  let total_seconds := (time_value * 60)%Z in
  if (total_seconds <=? 0)%Z then Returns ([Refused], clock)
  else
    match clock with
    | [] => Blocks
    | now :: clock' =>
        match int_to_float total_seconds with
        | None => Escapes OverflowError
        | Some seconds =>
            lift (countdown message (PrimFloat.add now seconds) clock')
        end
    end.

(** [utils.timer_logic] for whatever it is called with. The duration of a
    task is a [float], an [int] or a [bool] ([True] is the [int] 1); on
    every other value [* 60] or [<= 0] raises [TypeError]. [Blocks] is a
    countdown that has not ended when the readings of the clock end. *)
Definition timer_logic_number (message : string) (time_value : json)
    (clock : list float) : outcome (list tick * list float) :=
  match time_value with
  | JFloat f => lift (timer_logic message f clock)
  | JInt z => timer_logic_int message z clock
  | JBool b => timer_logic_int message (if b then 1 else 0)%Z clock
  | _ => Escapes TypeError
  end.

(** One call of [utils.timer_logic] of the loop of [start_pomodoro]. *)
Definition run_interval (call : interval) (clock : list float)
    : outcome (list tick * list float) :=
  match call with
  | Work label minutes | Break label minutes =>
      timer_logic_number label minutes clock
  end.

(** The [for] loop of [start_pomodoro] on a clock, for the values [ixs] of
    [i] that are left. Every call of [utils.timer_logic] is made when the
    one before has returned. The result is the calls that have returned,
    each with what it printed, and how the loop ends: it returns with the
    readings that are left, an exception is raised, or a call is still
    counting down when the readings end. The line that opens a cycle,
    [Pomodoro Cycle {i + 1}/{repeat_times}], is not recorded; formatting it
    raises when one of the two numbers has more digits than [str]
    converts. *)
Fixpoint pomodoro_loop (self : Task) (break_time_minutes : json)
    (prompt_message : string) (repeat_times : Z) (ixs : list Z)
    (clock : list float)
    : list (interval * list tick) * outcome (list float) :=
  match ixs with
  | [] => ([], Returns clock)
  | i :: ixs' =>
      if exceeds_digits (i + 1) || exceeds_digits repeat_times then
        ([], Escapes digits_error)
      else
        match run_interval (work_interval self) clock with
        | Returns (out, clock1) =>
            if (i <? repeat_times - 1)%Z then
              match run_interval
                      (break_interval prompt_message break_time_minutes)
                      clock1 with
              | Returns (out', clock2) =>
                  let '(done, r) :=
                    pomodoro_loop self break_time_minutes prompt_message
                      repeat_times ixs' clock2 in
                  ((work_interval self, out)
                   :: (break_interval prompt_message break_time_minutes, out')
                   :: done, r)
              | Escapes e => ([(work_interval self, out)], Escapes e)
              | Blocks => ([(work_interval self, out)], Blocks)
              end
            else
              let '(done, r) :=
                pomodoro_loop self break_time_minutes prompt_message
                  repeat_times ixs' clock1 in
              ((work_interval self, out) :: done, r)
        | Escapes e => ([], Escapes e)
        | Blocks => ([], Blocks)
        end
  end.

(** [for i in range(repeat_times): ...] *)
Definition pomodoro_run (self : Task) (break_time_minutes : json)
    (prompt_message : string) (repeat_times : Z) (clock : list float)
    : list (interval * list tick) * outcome (list float) :=
  pomodoro_loop self break_time_minutes prompt_message repeat_times
    (range repeat_times) clock.



(** How often an object is in a list. *)
Definition occurrences (task : loc) (l : list loc) : nat :=
  length (filter (λ x, x = task) l).

(** * Properties *)

(** ** Strings and priorities *)

Example strip_blank : PyStr.strip "  " = "".
Proof. reflexivity. Qed.

Example strip_padded : PyStr.strip "  Write report " = "Write report".
Proof. reflexivity. Qed.

Example upper_mixed : PyStr.upper "hiGh" = "HIGH".
Proof. reflexivity. Qed.

Example getitem_lower : Priority_getitem "high" = None.
Proof. reflexivity. Qed.

Lemma upper_name (p : Priority) : PyStr.upper (Priority_name p) = Priority_name p.
Proof. by destruct p. Qed.

Lemma getitem_name (p : Priority) : Priority_getitem (Priority_name p) = Some p.
Proof. by destruct p. Qed.

Lemma getitem_some (key : string) (p : Priority) :
  Priority_getitem key = Some p → key = Priority_name p.
Proof.
  unfold Priority_getitem.
  destruct (String.eqb key "LOW") eqn:E1;
    [apply String.eqb_eq in E1; by intros [= <-] |].
  destruct (String.eqb key "MID") eqn:E2;
    [apply String.eqb_eq in E2; by intros [= <-] |].
  destruct (String.eqb key "HIGH") eqn:E3;
    [apply String.eqb_eq in E3; by intros [= <-] | done].
Qed.

Lemma upper_char_of_variant (c c' : ascii) :
  Ascii.eqb c (PyStr.upper_char c') || Ascii.eqb c (PyStr.lower_char c') = true →
  PyStr.upper_char c = PyStr.upper_char c'.
Proof.
  intros H. apply orb_true_iff in H as [H | H]; apply Ascii.eqb_eq in H; subst c.
  - destruct c' as [[] [] [] [] [] [] [] []]; reflexivity.
  - destruct c' as [[] [] [] [] [] [] [] []]; reflexivity.
Qed.

Lemma upper_of_variant (s name : string) :
  case_variant s name = true → PyStr.upper s = PyStr.upper name.
Proof.
  revert name. induction s as [| c s IH]; intros [| c' name]; simpl; try done.
  intros H. apply andb_true_iff in H as [Hc Hs].
  unfold PyStr.upper in *. simpl.
  by rewrite (upper_char_of_variant _ _ Hc), (IH _ Hs).
Qed.

Lemma variant_names (s : string) (p : Priority) :
  case_variant s (Priority_name p) = true →
  Priority_getitem (PyStr.upper s) = Some p.
Proof.
  intros H. by rewrite (upper_of_variant _ _ H), upper_name, getitem_name.
Qed.

(** ** [Task.__init__] *)

Lemma Task_init_raises_iff name descr prio time :
  raised (Task_init name descr prio time) ↔
  bad_name name = true ∨ bad_priority prio = true ∨ bad_time time = true.
Proof.
  unfold Task_init.
  destruct (bad_name name) eqn:Hn; [simpl; tauto |].
  destruct (bad_priority prio) eqn:Hp; [simpl; tauto |].
  destruct (bad_time time) eqn:Ht; [simpl; tauto |].
  destruct name as [[] |]; try discriminate Hn.
  destruct prio; try discriminate Hp.
  destruct time; try discriminate Ht.
  simpl. intuition discriminate.
Qed.

Lemma Task_init_ok name descr prio time task :
  Task_init name descr prio time = Ok task →
  ∃ n p t,
    name = PyData (JStr n) ∧ prio = PyPriority p ∧ time = PyData t
    ∧ bad_name name = false ∧ bad_time time = false
    ∧ task = mkTask n descr p t (JBool false).
Proof.
  unfold Task_init.
  destruct (bad_name name) eqn:Hn; [done |].
  destruct (bad_priority prio) eqn:Hp; [done |].
  destruct (bad_time time) eqn:Ht; [done |].
  destruct name as [[] |]; try discriminate Hn.
  destruct prio; try discriminate Hp.
  destruct time; try discriminate Ht.
  intros [= <-]. eauto 10.
Qed.

Lemma Task_init_accepts (n : string) descr (p : Priority) (t : json) :
  bad_name (PyData (JStr n)) = false → bad_time (PyData t) = false →
  Task_init (PyData (JStr n)) descr (PyPriority p) (PyData t)
  = Ok (mkTask n descr p t (JBool false)).
Proof. intros Hn Ht. unfold Task_init. by rewrite Hn, Ht. Qed.

Lemma Task_init_valid name descr prio time task :
  Task_init name descr prio time = Ok task → valid_task task.
Proof.
  intros H. apply Task_init_ok in H as (n & p & t & -> & -> & -> & Hn & Ht & ->).
  by split.
Qed.

(** A strictly positive number passes the third check when it is an [int],
    a [bool], or one of the sample floats; the converse fails at [nan]. *)
Lemma le_zero_nan : le_zero (JFloat nan) = false ∧ positive_number (JFloat nan) = false.
Proof. split; reflexivity. Qed.

Lemma bad_time_int (z : Z) : bad_time (PyData (JInt z)) = negb (positive_number (JInt z)).
Proof. simpl. destruct (Z.leb_spec z 0), (Z.ltb_spec 0 z); simpl; lia || done. Qed.

Lemma bad_time_bool (b : bool) : bad_time (PyData (JBool b)) = negb (positive_number (JBool b)).
Proof. by destruct b. Qed.

(** With a string for the name, a member for the priority and an [int]
    for the duration, the constructor raises exactly on a blank name or a
    duration that is not strictly positive. *)
Lemma Task_init_int_iff (n : string) (descr : json) (p : Priority) (z : Z) :
  raised (Task_init (PyData (JStr n)) descr (PyPriority p) (PyData (JInt z)))
  ↔ PyStr.strip n = "" ∨ (z ≤ 0)%Z.
Proof.
  rewrite Task_init_raises_iff. simpl.
  destruct (String.eqb_spec (PyStr.strip n) ""), (Z.leb_spec z 0);
    simpl; intuition (discriminate || lia).
Qed.

(** C3: the constructor is to raise whenever the duration is not a strictly
    positive number. It does not for the float [nan], which [main.py] passes
    when the user types nan: [nan <= 0] is false, so the third check lets it
    through and the task is built. *)
Theorem Task_init_accepts_nan :
  positive_number (JFloat nan) = false
  ∧ Task_init (PyData (JStr "report")) (JStr "Q3") (PyPriority HIGH)
      (PyData (JFloat nan))
    = Ok (mkTask "report" (JStr "Q3") HIGH (JFloat nan) (JBool false))
  ∧ create_task initial (PyData (JStr "report")) (JStr "Q3") (PyPriority HIGH)
      (PyData (JFloat nan))
    = Ok (mkWorld [mkTask "report" (JStr "Q3") HIGH (JFloat nan) (JBool false)]
            (mkManager [] [] [0]),
          0%nat).
Proof. split_and!; reflexivity. Qed.

(** ** [Task.conclude_task] *)

Lemma conclude_task_truthy (t : Task) :
  truthy (_is_completed (conclude_task t).1) = true.
Proof.
  unfold conclude_task. destruct (truthy (_is_completed t)) eqn:E; by simpl.
Qed.

Lemma conclude_task_again (t : Task) :
  conclude_task (conclude_task t).1
  = ((conclude_task t).1, AlreadyCompleted (task_name t)).
Proof.
  pose proof (conclude_task_truthy t) as H.
  unfold conclude_task at 1. rewrite H. simpl.
  unfold conclude_task. by destruct (truthy (_is_completed t)).
Qed.

Lemma conclude_times_done (n : nat) (t : Task) :
  truthy (_is_completed t) = true →
  conclude_times n t = (t, replicate n (AlreadyCompleted (task_name t))).
Proof.
  intros H. induction n as [| n IH]; [done |].
  simpl. unfold conclude_task. rewrite H. simpl. by rewrite IH.
Qed.

Lemma conclude_task_fields (t : Task) :
  task_name (conclude_task t).1 = task_name t
  ∧ description (conclude_task t).1 = description t
  ∧ priority (conclude_task t).1 = priority t
  ∧ conclude_time (conclude_task t).1 = conclude_time t.
Proof. unfold conclude_task. by destruct (truthy (_is_completed t)). Qed.

Lemma conclude_task_first (t : Task) :
  conclude_task t
  = if truthy (_is_completed t)
    then (t, AlreadyCompleted (task_name t))
    else ((conclude_task t).1, CompletedNow (task_name t)).
Proof. unfold conclude_task. by destruct (truthy (_is_completed t)). Qed.

(** C5: one call of [conclude_task] leaves the flag true ([True] itself
    whenever the flag was a Boolean, as [__init__] and [conclude_task] set
    it) and the other four fields as they were; a second call returns the
    task unchanged and prints the already-completed message; the completion
    message is printed only by a call that finds the flag false, so in any
    number of calls in a row the change from false to true happens in the
    first call or not at all. *)
Theorem conclude_task_idempotent (t : Task) :
  truthy (_is_completed (conclude_task t).1) = true
  ∧ (∀ b, _is_completed t = JBool b →
       _is_completed (conclude_task t).1 = JBool true)
  ∧ task_name (conclude_task t).1 = task_name t
  ∧ description (conclude_task t).1 = description t
  ∧ priority (conclude_task t).1 = priority t
  ∧ conclude_time (conclude_task t).1 = conclude_time t
  ∧ conclude_task (conclude_task t).1
    = ((conclude_task t).1, AlreadyCompleted (task_name t))
  ∧ ((conclude_task t).2 = CompletedNow (task_name t)
     ↔ truthy (_is_completed t) = false)
  ∧ (truthy (_is_completed t) = true →
       conclude_task t = (t, AlreadyCompleted (task_name t)))
  ∧ ∀ n, conclude_times (S n) t
         = ((conclude_task t).1,
            (conclude_task t).2 :: replicate n (AlreadyCompleted (task_name t))).
Proof.
  destruct (conclude_task_fields t) as (Hn & Hd & Hp & Hc).
  split_and!; try done.
  - apply conclude_task_truthy.
  - intros b Hb. unfold conclude_task. rewrite Hb. by destruct b.
  - apply conclude_task_again.
  - rewrite conclude_task_first.
    destruct (truthy (_is_completed t)); simpl; split; done.
  - intros H. by rewrite conclude_task_first, H.
  - intros n. simpl.
    destruct (conclude_task t) as [t1 m1] eqn:E.
    pose proof (conclude_task_truthy t) as Ht. rewrite E in Ht. simpl in *.
    rewrite (conclude_times_done n t1 Ht). by rewrite Hn.
Qed.

Example conclude_twice :
  conclude_times 2 (mkTask "report" (JStr "Q3") HIGH (JFloat 25) (JBool false))
  = (mkTask "report" (JStr "Q3") HIGH (JFloat 25) (JBool true),
     [CompletedNow "report"; AlreadyCompleted "report"]).
Proof. reflexivity. Qed.

(** A flag that is not a Boolean, as [_from_dict] copies it from a file
    that [save_tasks] did not write: a true one stays as it is. *)
Example conclude_text_flag :
  conclude_task (mkTask "report" (JStr "Q3") HIGH (JFloat 25) (JStr "yes"))
  = (mkTask "report" (JStr "Q3") HIGH (JFloat 25) (JStr "yes"),
     AlreadyCompleted "report").
Proof. reflexivity. Qed.

(** ** [Task.start_pomodoro] *)

Section Pomodoro.

Variables (self : Task) (break_time_minutes : json) (prompt_message : string).

Abbreviation work := (work_interval self).
Abbreviation pause := (break_interval prompt_message break_time_minutes).






(** The closing prompt asks again after every answer that is not an
    integer, and ends with the first that is: the run returns. *)
Lemma pomodoro_prompt_returns (k : nat) (n : Z) (rest : list (option Z)) :
  ∃ t out,
    pomodoro_prompt self (replicate k None ++ Some n :: rest)
    = Some (t, replicate k InvalidAnswer ++ out)
    ∧ (t, out)
      = if (n =? 1)%Z then ((conclude_task self).1, [(conclude_task self).2])
        else if (n =? 0)%Z then (self, [StatusUnchanged (task_name self)])
        else (self, []).
Proof.
  induction k as [| k (t & out & IH & Hres)]; simpl.
  - destruct (n =? 1)%Z; [| destruct (n =? 0)%Z]; eauto.
    destruct (conclude_task self) as [t m]. eauto.
  - exists t, out. by rewrite IH.
Qed.

End Pomodoro.

(** ** [TaskManager.list_manager] *)

Lemma target_list_bucket (self : TaskManager) (p : Priority) :
  target_list self (PyStr.lower (Priority_name p)) = Ok (bucket self p).
Proof. by destruct p. Qed.

Lemma set_target_list_bucket (self : TaskManager) (p : Priority) (l : list loc) :
  set_target_list self (PyStr.lower (Priority_name p)) l = with_bucket self p l.
Proof. by destruct p. Qed.

Lemma bucket_with_bucket (self : TaskManager) (p q : Priority) (l : list loc) :
  bucket (with_bucket self p l) q = if decide (p = q) then l else bucket self q.
Proof. by destruct p, q. Qed.

Lemma push_with_bucket (self : TaskManager) (p : Priority) (task : loc) :
  push self p task = with_bucket self p (bucket self p ++ [task]).
Proof. by destruct p. Qed.

Lemma bucket_push (self : TaskManager) (p q : Priority) (task : loc) :
  bucket (push self p task) q
  = bucket self q ++ (if decide (p = q) then [task] else []).
Proof. destruct p, q; simpl; by rewrite ?app_nil_r. Qed.

Lemma list_manager_add (self : TaskManager) (task : loc) (t : Task) :
  list_manager self task t ADD = Ok (push self (priority t) task, None).
Proof.
  unfold list_manager. rewrite target_list_bucket. simpl.
  by rewrite set_target_list_bucket, push_with_bucket.
Qed.

Lemma list_manager_delete (self : TaskManager) (task : loc) (t : Task) :
  list_manager self task t DELETE
  = if contains (bucket self (priority t)) task then
      Ok (with_bucket self (priority t)
            (remove_first task (bucket self (priority t))),
          Some (Removed (task_name t) (Priority_name (priority t))))
    else Ok (self, Some (NotFound (task_name t) (Priority_name (priority t)))).
Proof.
  unfold list_manager. rewrite target_list_bucket. simpl.
  by rewrite set_target_list_bucket.
Qed.

Lemma remove_first_split (task : loc) (l : list loc) :
  task ∈ l →
  ∃ before after,
    l = before ++ task :: after ∧ (task ∉ before)
    ∧ remove_first task l = before ++ after.
Proof.
  induction l as [| x l IH]; intros Hin; [by apply elem_of_nil in Hin |].
  simpl. destruct (decide (task = x)) as [-> | Hne].
  - exists [], l. split_and!; [done | apply not_elem_of_nil | done].
  - apply elem_of_cons in Hin as [-> | Hin]; [done |].
    destruct (IH Hin) as (before & after & -> & Hnot & ->).
    exists (x :: before), after. split_and!; [done | | done].
    intros [-> | H]%elem_of_cons; done.
Qed.

Lemma remove_first_subseteq (task : loc) (l : list loc) :
  remove_first task l ⊆ l.
Proof.
  induction l as [| x l IH]; simpl; [done |].
  destruct (decide (task = x)).
  - intros y Hy. by right.
  - intros y [-> | Hy]%elem_of_cons; [by left | right; by apply IH].
Qed.

(** C7: when the task is not in the list of its priority, [list_manager]
    with [DELETE] prints the not-found message, raises nothing, and returns
    the manager as it was, so each of the three lists is unchanged. *)
Theorem delete_absent (self : TaskManager) (task : loc) (t : Task) :
  (task ∉ bucket self (priority t)) →
  list_manager self task t DELETE
  = Ok (self, Some (NotFound (task_name t) (Priority_name (priority t)))).
Proof.
  intros Hnot. rewrite list_manager_delete. unfold contains.
  by rewrite bool_decide_eq_false_2.
Qed.

Lemma delete_absent_witness :
  list_manager (mkManager [3] [1] [0; 2]) 1
    (mkTask "call" (JStr "") HIGH (JInt 5) (JBool false)) DELETE
  = Ok (mkManager [3] [1] [0; 2], Some (NotFound "call" "HIGH")).
Proof.
  apply (delete_absent (mkManager [3] [1] [0; 2]) 1
           (mkTask "call" (JStr "") HIGH (JInt 5) (JBool false))).
  simpl. compute_done.
Defined.

(** C6, as the code has it: [list_manager] with [DELETE] removes the first
    occurrence of the very object it is given (membership and removal go by
    identity) from the list of the object's priority, prints the removed
    message, and leaves the other two lists alone. *)
Theorem delete_present (self : TaskManager) (task : loc) (t : Task) :
  task ∈ bucket self (priority t) →
  ∃ before after m,
    bucket self (priority t) = before ++ task :: after
    ∧ (task ∉ before)
    ∧ list_manager self task t DELETE
      = Ok (m, Some (Removed (task_name t) (Priority_name (priority t))))
    ∧ bucket m (priority t) = before ++ after
    ∧ ∀ q, q ≠ priority t → bucket m q = bucket self q.
Proof.
  intros Hin.
  destruct (remove_first_split _ _ Hin) as (before & after & Hl & Hnot & Hrm).
  exists before, after,
    (with_bucket self (priority t) (remove_first task (bucket self (priority t)))).
  split_and!; [done | done | | |].
  - rewrite list_manager_delete. unfold contains.
    by rewrite bool_decide_eq_true_2.
  - rewrite bucket_with_bucket. by rewrite decide_True.
  - intros q Hq. rewrite bucket_with_bucket. by rewrite decide_False.
Qed.

Lemma delete_present_witness :
  ∃ before after m,
    [0; 2; 0]%nat = before ++ 0%nat :: after
    ∧ (0%nat ∉ before)
    ∧ list_manager (mkManager [3] [1] [0; 2; 0]) 0
        (mkTask "report" (JStr "Q3") HIGH (JFloat 25) (JBool false)) DELETE
      = Ok (m, Some (Removed "report" "HIGH"))
    ∧ bucket m HIGH = before ++ after
    ∧ ∀ q, q ≠ HIGH → bucket m q = bucket (mkManager [3] [1] [0; 2; 0]) q.
Proof.
  apply (delete_present (mkManager [3] [1] [0; 2; 0]) 0
           (mkTask "report" (JStr "Q3") HIGH (JFloat 25) (JBool false))).
  simpl. apply elem_of_cons. by left.
Defined.

Lemma reachable_twins : reachable twin_world.
Proof.
  unfold reachable.
  (* first = create_task("report", "Q3", Priority.HIGH, 25.0) *)
  eapply rtc_l.
  { apply (step_construct initial (PyData (JStr "report")) (JStr "Q3")
             (PyPriority HIGH) (PyData (JFloat 25))). reflexivity. }
  eapply rtc_l.
  { eapply (step_list_manager _ 0%nat _ ADD); reflexivity. }
  (* second = Task("report", "Q3", Priority.HIGH, 25.0) *)
  eapply rtc_l.
  { apply (step_construct _ (PyData (JStr "report")) (JStr "Q3")
             (PyPriority HIGH) (PyData (JFloat 25))). reflexivity. }
  apply rtc_refl.
Qed.

(** C6, as it is specified, fails: the two objects of [twin_world] are
    equal in all five fields, the first is in the high list, and deleting
    the second finds nothing and removes nothing. *)
Lemma delete_twin_not_found :
  reachable twin_world
  ∧ heap twin_world !! 0%nat = heap twin_world !! 1%nat
  ∧ heap twin_world !! 1%nat
    = Some (mkTask "report" (JStr "Q3") HIGH (JFloat 25) (JBool false))
  ∧ task_high (lm twin_world) = [0%nat]
  ∧ list_manager (lm twin_world) 1
      (mkTask "report" (JStr "Q3") HIGH (JFloat 25) (JBool false)) DELETE
    = Ok (lm twin_world, Some (NotFound "report" "HIGH")).
Proof. split_and!; [exact reachable_twins | reflexivity ..]. Qed.

(** ** Adding decoded tasks to the store *)

Lemma bind_ok {A B} (r : result A) (k : A → result B) (b : B) :
  r ≫= k = Ok b → ∃ a, r = Ok a ∧ k a = Ok b.
Proof. destruct r as [a | e]; [eauto | done]. Qed.

Lemma add_tasks_app (w : World) (ts1 ts2 : list Task) :
  add_tasks w (ts1 ++ ts2) = add_tasks (add_tasks w ts1) ts2.
Proof. apply foldl_app. Qed.

Lemma add_tasks_heap (w : World) (ts : list Task) :
  heap (add_tasks w ts) = heap w ++ ts.
Proof.
  revert w. induction ts as [| t ts IH]; intros w; simpl.
  - by rewrite app_nil_r.
  - unfold add_tasks in IH. rewrite IH. simpl. by rewrite <- app_assoc.
Qed.

Lemma add_tasks_bucket (w : World) (ts : list Task) (p : Priority) :
  bucket (lm w) p `prefix_of` bucket (lm (add_tasks w ts)) p.
Proof.
  revert w. induction ts as [| t ts IH]; intros w; simpl; [done |].
  etrans; [| apply IH]. simpl. rewrite bucket_push. by apply prefix_app_r.
Qed.

Lemma from_dict_ok (r : json) (t : Task) :
  _from_dict r = Ok t →
  ∃ d name descr s time flag,
    r = JDict d
    ∧ d !! "task_name" = Some (JStr name)
    ∧ d !! "description" = Some descr
    ∧ d !! "priority" = Some (JStr s)
    ∧ d !! "conclude_time" = Some time
    ∧ d !! "_is_completed" = Some flag
    ∧ bad_name (PyData (JStr name)) = false
    ∧ Priority_getitem (PyStr.upper s) = Some (priority t)
    ∧ bad_time (PyData time) = false
    ∧ t = mkTask name descr (priority t) time flag.
Proof.
  unfold _from_dict. intros H.
  apply bind_ok in H as (name & Hname & H).
  apply bind_ok in H as (descr & Hdescr & H).
  apply bind_ok in H as (prio & Hprio & H).
  apply bind_ok in H as (key & Hkey & H).
  apply bind_ok in H as (p & Hp & H).
  apply bind_ok in H as (time & Htime & H).
  apply bind_ok in H as (task & Htask & H).
  apply bind_ok in H as (flag & Hflag & H).
  destruct r as [| | | | | | d]; try discriminate Hname.
  unfold getitem in *.
  destruct (d !! "task_name") as [name' |] eqn:E1; [| done].
  destruct (d !! "description") as [descr' |] eqn:E2; [| done].
  destruct (d !! "priority") as [prio' |] eqn:E3; [| done].
  destruct (d !! "conclude_time") as [time' |] eqn:E4; [| done].
  destruct (d !! "_is_completed") as [flag' |] eqn:E5; [| done].
  simplify_eq.
  destruct prio as [| | | | s | |]; try discriminate Hkey.
  injection Hkey as <-.
  unfold Priority_lookup in Hp.
  destruct (Priority_getitem (PyStr.upper s)) as [p' |] eqn:E6; [| done].
  injection Hp as ->.
  apply Task_init_ok in Htask as (n & p' & t' & [= ->] & [= <-] & [= <-] & Hn & Ht & ->).
  simpl. exists d, n, descr, s, time, flag. split_and!; done.
Qed.

Lemma from_dict_valid (r : json) (t : Task) :
  _from_dict r = Ok t → valid_task t.
Proof.
  intros H.
  apply from_dict_ok in H
    as (d & name & descr & s & time & flag & _ & _ & _ & _ & _ & _ & Hn & _ & Ht & ->).
  by split.
Qed.

Lemma from_dict_well_formed (r : json) :
  well_formed_record r → ∃ t, _from_dict r = Ok t.
Proof.
  intros (d & name & descr & s & p & time & flag
          & -> & H1 & H2 & H3 & H4 & H5 & Hn & Hp & Ht).
  exists (mkTask name descr p time flag).
  unfold _from_dict, getitem. rewrite H1, H2, H3, H4, H5. simpl.
  unfold Priority_lookup. rewrite Hp. simpl.
  rewrite (Task_init_accepts _ _ _ _ Hn Ht). reflexivity.
Qed.

Lemma from_dict_unrecognized (r : json) :
  unrecognized_record r → raised (_from_dict r).
Proof.
  intros (d & s & -> & Hs & Hun).
  destruct (_from_dict (JDict d)) as [t |] eqn:E; [| done].
  apply from_dict_ok in E
    as (d' & name & descr & s' & time & flag & [= <-] & _ & _ & Hs' & _ & _ & _ & Hp & _).
  rewrite Hs in Hs'. injection Hs' as <-.
  unfold unrecognized in Hun. congruence.
Qed.

Lemma import_loop_cons_ok (r : json) (t : Task) (rest : list json) (w : World) :
  _from_dict r = Ok t →
  import_loop (r :: rest) w = import_loop rest (add_task w t).
Proof.
  intros H. simpl. rewrite H. simpl. by rewrite list_manager_add.
Qed.

Lemma import_loop_cons_raise (r : json) (e : exn) (rest : list json) (w : World) :
  _from_dict r = Raise e → import_loop (r :: rest) w = (w, Some e).
Proof. intros H. simpl. by rewrite H. Qed.

(** The loop adds the tasks of the records before the first one that
    [_from_dict] rejects, and stops there. *)
Lemma import_loop_spec (items : list json) (w : World) :
  ∃ pre ts,
    decodes pre ts
    ∧ (import_loop items w).1 = add_tasks w ts
    ∧ match (import_loop items w).2 with
      | None => pre = items
      | Some e => ∃ r rest, items = pre ++ r :: rest ∧ _from_dict r = Raise e
      end.
Proof.
  revert w. induction items as [| r items IH]; intros w.
  - exists [], []. split_and!; [constructor | done | done].
  - destruct (_from_dict r) as [t | e] eqn:E.
    + rewrite (import_loop_cons_ok _ _ _ _ E).
      destruct (IH (add_task w t)) as (pre & ts & Hdec & Hw & Hres).
      exists (r :: pre), (t :: ts). split_and!.
      * by constructor.
      * by rewrite Hw.
      * destruct (import_loop items (add_task w t)).2 as [e |].
        -- destruct Hres as (r' & rest & -> & Hr'). by exists r', rest.
        -- by rewrite Hres.
    + rewrite (import_loop_cons_raise _ _ _ _ E).
      exists [], []. split_and!; [constructor | done |].
      simpl. by exists r, items.
Qed.

Lemma import_loop_decodes (items : list json) (ts : list Task) (w : World) :
  decodes items ts → import_loop items w = (add_tasks w ts, None).
Proof.
  intros H. revert w. induction H as [| r t items ts Hr _ IH]; intros w; [done |].
  rewrite (import_loop_cons_ok _ _ _ _ Hr). apply IH.
Qed.

Lemma decodes_well_formed (items : list json) :
  Forall well_formed_record items → ∃ ts, decodes items ts.
Proof.
  induction 1 as [| r items Hr _ [ts IH]]; [by exists []; constructor |].
  destruct (from_dict_well_formed _ Hr) as [t Ht].
  exists (t :: ts). by constructor.
Qed.

Lemma decodes_valid (items : list json) (ts : list Task) :
  decodes items ts → Forall valid_task ts.
Proof.
  induction 1 as [| r t items ts Hr _ IH]; constructor; [| done].
  by eapply from_dict_valid.
Qed.

(** No string is a record: [_from_dict] cannot index it by a key. *)
Lemma import_loop_strings (ss : list string) (w : World) :
  import_loop (JStr <$> ss) w
  = (w, match ss with [] => None | _ => Some TypeError end).
Proof. by destruct ss. Qed.

(** ** [import_tasks] *)

Lemma import_loop_app (l1 l2 : list json) (w : World) :
  import_loop (l1 ++ l2) w
  = match import_loop l1 w with
    | (w1, None) => import_loop l2 w1
    | (w1, Some e) => (w1, Some e)
    end.
Proof.
  revert w. induction l1 as [| r l1 IH]; intros w; [done |].
  simpl. destruct (_from_dict r) as [t | e]; [| done].
  simpl. rewrite list_manager_add. apply IH.
Qed.

(** One key of a dictionary: the tasks of a prefix of its sequence are
    added, of the whole sequence when no exception ends the loop. *)
Lemma import_key_spec (d : gmap string json) (key : string) (w : World) :
  ∃ pre ts,
    decodes pre ts
    ∧ (import_key (JDict d) key w).1 = add_tasks w ts
    ∧ pre `prefix_of` listed d key
    ∧ ((import_key (JDict d) key w).2 = None → pre = listed d key).
Proof.
  unfold import_key, listed, dict_get. simpl.
  destruct (d !! key) as [v |] eqn:E; simpl.
  - destruct v as [| b | z | f | s | l | d']; simpl;
      try (exists [], []; split_and!; [constructor | done | done | done]).
    + rewrite import_loop_strings. exists [], [].
      split_and!; [constructor | done | done | done].
    + destruct (import_loop_spec l w) as (pre & ts & Hdec & Hw & Hres).
      exists pre, ts. split_and!; [done | done | |].
      * destruct (import_loop l w).2.
        -- destruct Hres as (r & rest & -> & _). by apply prefix_app_r.
        -- by subst.
      * intros Hnone. by rewrite Hnone in Hres.
    + rewrite import_loop_strings. exists [], [].
      split_and!; [constructor | done | done | done].
  - exists [], []. split_and!; [constructor | done | done | done].
Qed.

(** The whole document: the tasks of a prefix of its records are added, in
    the order high, mid, low; of all its records when the import succeeds. *)
Lemma import_document_spec (d : gmap string json) (w : World) :
  ∃ pre ts,
    decodes pre ts
    ∧ (import_document (JDict d) w).1 = add_tasks w ts
    ∧ pre `prefix_of` records d
    ∧ ((import_document (JDict d) w).2 = None → pre = records d).
Proof.
  unfold import_document, records.
  destruct (import_key_spec d "high" w) as (p1 & t1 & Hd1 & Hw1 & Hp1 & Hn1).
  destruct (import_key (JDict d) "high" w) as [w1 [e1 |]]; simpl in *.
  { exists p1, t1. split_and!; [done | done | by apply prefix_app_r | done]. }
  rewrite <- (Hn1 eq_refl). subst w1.
  destruct (import_key_spec d "mid" (add_tasks w t1))
    as (p2 & t2 & Hd2 & Hw2 & Hp2 & Hn2).
  destruct (import_key (JDict d) "mid" (add_tasks w t1)) as [w2 [e2 |]];
    simpl in *.
  { exists (p1 ++ p2), (t1 ++ t2). split_and!.
    - by apply Forall2_app.
    - by rewrite add_tasks_app.
    - apply prefix_app. by apply prefix_app_r.
    - done. }
  rewrite <- (Hn2 eq_refl). subst w2.
  destruct (import_key_spec d "low" (add_tasks (add_tasks w t1) t2))
    as (p3 & t3 & Hd3 & Hw3 & Hp3 & Hn3).
  exists (p1 ++ p2 ++ p3), (t1 ++ t2 ++ t3). split_and!.
  - apply Forall2_app; [done |]. by apply Forall2_app.
  - by rewrite Hw3, !add_tasks_app.
  - by do 2 apply prefix_app.
  - intros Hnone. by rewrite (Hn3 Hnone).
Qed.

Lemma import_document_not_dict (data : json) (w : World) :
  (∀ d, data ≠ JDict d) →
  import_document data w = (w, Some AttributeError).
Proof. intros H. destruct data; try done. by destruct (H d). Qed.

(** Whatever the file holds, the store afterwards is the store before with
    some tasks added, each of them built by [__init__]. *)
Lemma import_tasks_adds (f : file) (w : World) :
  ∃ ts, (import_tasks f w).1 = add_tasks w ts ∧ Forall valid_task ts.
Proof.
  destruct f as [| | e | data]; simpl; try (by exists []).
  destruct data as [| b | z | fl | s | l | d];
    try (by exists []).
  destruct (import_document_spec d w) as (pre & ts & Hdec & Hw & _).
  exists ts. split; [| by eapply decodes_valid].
  by destruct (import_document (JDict d) w) as [w' [e |]].
Qed.

(** When every key that is present holds a list, the three loops are one
    loop over the records of the document. *)
Lemma import_document_records (d : gmap string json) (w : World) :
  (∀ key v, key ∈ keys → d !! key = Some v → ∃ l, v = JList l) →
  import_document (JDict d) w = import_loop (records d) w.
Proof.
  intros Hlists.
  assert (∀ key w', key ∈ keys →
            import_key (JDict d) key w' = import_loop (listed d key) w') as Hkey.
  { intros key w' Hin. unfold import_key, listed, dict_get. simpl.
    destruct (d !! key) as [v |] eqn:E; [| done].
    by destruct (Hlists key v Hin E) as [l ->]. }
  assert ("high" ∈ keys ∧ "mid" ∈ keys ∧ "low" ∈ keys) as (Hh & Hm & Hl)
    by (unfold keys; set_solver).
  unfold import_document, records.
  rewrite !import_loop_app, (Hkey _ _ Hh).
  destruct (import_loop (listed d "high") w) as [w1 [e1 |]]; [done |].
  rewrite (Hkey _ _ Hm), import_loop_app.
  destruct (import_loop (listed d "mid") w1) as [w2 [e2 |]]; [done |].
  apply (Hkey _ _ Hl).
Qed.

Lemma defaults_lookup (key : string) (v : json) :
  ({[ "high" := JList []; "mid" := JList []; "low" := JList [] ]}
     : gmap string json) !! key = Some v →
  v = JList [].
Proof.
  intros H.
  apply lookup_insert_Some in H as [[_ <-] | [_ H]]; [done |].
  apply lookup_insert_Some in H as [[_ <-] | [_ H]]; [done |].
  by apply lookup_singleton_Some in H as [_ <-].
Qed.

Lemma dict_get_with_missing_keys (d : gmap string json) (key : string) :
  dict_get (JDict (with_missing_keys d)) key = dict_get (JDict d) key.
Proof.
  unfold dict_get, with_missing_keys. f_equal.
  destruct (d !! key) as [v |] eqn:E.
  - by rewrite (lookup_union_Some_l _ _ _ _ E).
  - rewrite lookup_union_r by done.
    match goal with
    | |- default _ ?o = _ => destruct o as [v |] eqn:E'; [| done]
    end.
    by rewrite (defaults_lookup _ _ E').
Qed.

(** [data.get(key, [])] makes a missing key an empty sequence, for every
    dictionary. *)
Lemma import_document_with_missing_keys (d : gmap string json) (w : World) :
  import_document (JDict (with_missing_keys d)) w = import_document (JDict d) w.
Proof.
  unfold import_document, import_key.
  by rewrite !dict_get_with_missing_keys.
Qed.

Lemma listed_absent (d : gmap string json) (key : string) :
  d !! key = None → listed d key = [].
Proof. intros H. unfold listed. by rewrite H. Qed.

Lemma records_well_formed (d : gmap string json) :
  well_formed_document d → Forall well_formed_record (records d).
Proof.
  intros Hwf.
  assert (∀ key, key ∈ keys → Forall well_formed_record (listed d key)) as H.
  { intros key Hin. unfold listed.
    destruct (d !! key) as [v |] eqn:E; [| constructor].
    by destruct (Hwf key v Hin E) as (l & -> & Hl). }
  unfold records. rewrite !Forall_app.
  split_and!; apply H; unfold keys; set_solver.
Qed.

(** C8: a document in which each of the keys high, mid, low is either absent
    or holds a sequence of well-formed records is imported without an error;
    the store gains the tasks of the records under the keys that are present,
    in the order high, mid, low, and nothing else; and the result is that of
    the same document with an empty sequence under every absent key. *)
Theorem import_missing_keys (d : gmap string json) (w : World) :
  well_formed_document d →
  ∃ ts,
    decodes (records d) ts
    ∧ import_tasks (Document (JDict d)) w = (add_tasks w ts, Imported)
    ∧ import_tasks (Document (JDict (with_missing_keys d))) w
      = (add_tasks w ts, Imported)
    ∧ heap (add_tasks w ts) = heap w ++ ts
    ∧ ∀ key, d !! key = None → listed d key = [].
Proof.
  intros Hwf.
  destruct (decodes_well_formed _ (records_well_formed _ Hwf)) as [ts Hts].
  assert (import_document (JDict d) w = (add_tasks w ts, None)) as Himp.
  { rewrite import_document_records.
    - by apply import_loop_decodes.
    - intros key v Hin Hv. destruct (Hwf key v Hin Hv) as (l & -> & _). eauto. }
  exists ts. split_and!.
  - done.
  - simpl. by rewrite Himp.
  - simpl. by rewrite import_document_with_missing_keys, Himp.
  - apply add_tasks_heap.
  - apply listed_absent.
Qed.

Lemma mid_only_well_formed : well_formed_document mid_only_document.
Proof.
  intros key v Hin Hv. unfold keys in Hin.
  apply elem_of_cons in Hin as [-> | Hin]; [discriminate Hv |].
  apply elem_of_cons in Hin as [-> | Hin].
  - injection Hv as <-. eexists. split; [reflexivity |].
    constructor; [| constructor].
    eexists _, "mail", (JStr ""), "mid", MID, (JInt 10), (JBool true).
    split_and!; reflexivity.
  - apply elem_of_cons in Hin as [-> | Hin]; [discriminate Hv |].
    by apply elem_of_nil in Hin.
Qed.

Lemma import_missing_keys_witness :
  ∃ ts,
    decodes (records mid_only_document) ts
    ∧ import_tasks (Document (JDict mid_only_document)) initial
      = (add_tasks initial ts, Imported)
    ∧ import_tasks (Document (JDict (with_missing_keys mid_only_document)))
        initial
      = (add_tasks initial ts, Imported)
    ∧ heap (add_tasks initial ts) = heap initial ++ ts
    ∧ ∀ key, mid_only_document !! key = None → listed mid_only_document key = [].
Proof.
  apply (import_missing_keys mid_only_document initial).
  exact mid_only_well_formed.
Defined.

Lemma decodes_elem (pre : list json) (ts : list Task) (r : json) :
  decodes pre ts → r ∈ pre → ∃ t, _from_dict r = Ok t.
Proof.
  intros Hdec Hin. apply list_elem_of_lookup in Hin as [i Hi].
  destruct (Forall2_lookup_l _ _ _ _ _ Hdec Hi) as (t & _ & Ht). eauto.
Qed.

Lemma walk_key_listed (d : gmap string json) (key : string) :
  (∀ v, d !! key = Some v → ∃ l, v = JList l) →
  walk_key d key = (listed d key, None).
Proof.
  intros H. unfold walk_key, listed.
  destruct (d !! key) as [v |] eqn:E; [| done].
  by destruct (H v eq_refl) as [l ->].
Qed.

(** For a document whose keys hold sequences, the walk goes through its
    records. *)
Lemma walk_records (d : gmap string json) :
  (∀ key v, key ∈ keys → d !! key = Some v → ∃ l, v = JList l) →
  walk d = (records d, None).
Proof.
  intros H.
  assert ("high" ∈ keys ∧ "mid" ∈ keys ∧ "low" ∈ keys) as (Hh & Hm & Hl)
    by (unfold keys; split_and!; compute_done).
  unfold walk, records.
  by rewrite !walk_key_listed by (intros v; by apply H).
Qed.

Lemma import_key_walk (d : gmap string json) (key : string) (w : World) :
  import_key (JDict d) key w
  = match import_loop (walk_key d key).1 w with
    | (w1, Some e) => (w1, Some e)
    | (w1, None) => (w1, (walk_key d key).2)
    end.
Proof.
  unfold import_key, walk_key, dict_get. simpl.
  destruct (iterate (default (JList []) (d !! key))) as [items | e]; simpl;
    [| done].
  by destruct (import_loop items w) as [w1 [e |]].
Qed.

(** The three loops are one loop over the walk; the value that cannot be
    iterated ends the import when no item before it has. *)
Lemma import_document_walk (d : gmap string json) (w : World) :
  import_document (JDict d) w
  = match import_loop (walk d).1 w with
    | (w1, Some e) => (w1, Some e)
    | (w1, None) => (w1, (walk d).2)
    end.
Proof.
  unfold import_document, walk. rewrite (import_key_walk d "high").
  destruct (walk_key d "high") as [high [e1 |]]; simpl.
  { by destruct (import_loop high w) as [w1 [e |]]. }
  destruct (walk_key d "mid") as [mid [e2 |]] eqn:Em; simpl.
  { rewrite import_loop_app.
    destruct (import_loop high w) as [w1 [e |]]; [done |].
    rewrite (import_key_walk d "mid"), Em. simpl.
    by destruct (import_loop mid w1) as [w2 [e |]]. }
  destruct (walk_key d "low") as [low stop] eqn:El; simpl.
  rewrite import_loop_app.
  destruct (import_loop high w) as [w1 [e |]]; [done |].
  rewrite (import_key_walk d "mid"), Em. simpl.
  rewrite import_loop_app.
  destruct (import_loop mid w1) as [w2 [e |]]; [done |].
  by rewrite (import_key_walk d "low"), El.
Qed.

Lemma add_tasks_same (w : World) (ts : list Task) :
  add_tasks w ts = w → ts = [].
Proof.
  intros H. apply (f_equal heap) in H. rewrite add_tasks_heap in H.
  apply (f_equal length) in H. rewrite length_app in H.
  destruct ts; [done | simpl in H; lia].
Qed.

(** C2, as the code has it: when a record under one of the three keys has a
    priority string that names no member of [Priority], [import_tasks]
    reports the exception it caught. The import has gone through a first
    part [pre] of the walk in which every item was rebuilt, up to the first
    item that [_from_dict] rejects (or to the value that cannot be
    iterated), and the store is the one before the call with exactly the
    tasks of [pre] added: nothing that was in a list is lost or moved, and
    the store is unchanged if and only if [pre] is empty. *)
Theorem import_unrecognized_priority (d : gmap string json) (r : json)
    (w : World) :
  r ∈ records d → unrecognized_record r →
  ∃ e pre ts,
    import_tasks (Document (JDict d)) w = (add_tasks w ts, UnexpectedError e)
    ∧ decodes pre ts
    ∧ ((∃ failing rest,
          (walk d).1 = pre ++ failing :: rest ∧ _from_dict failing = Raise e)
       ∨ ((walk d).1 = pre ∧ (walk d).2 = Some e))
    ∧ ((∀ key v, key ∈ keys → d !! key = Some v → ∃ l, v = JList l) →
       walk d = (records d, None))
    ∧ (r ∉ pre)
    ∧ heap (add_tasks w ts) = heap w ++ ts
    ∧ (∀ p, bucket (lm w) p `prefix_of` bucket (lm (add_tasks w ts)) p)
    ∧ (add_tasks w ts = w ↔ pre = []).
Proof.
  intros Hin Hbad. apply from_dict_unrecognized in Hbad.
  assert ((import_document (JDict d) w).2 ≠ None) as Hfails.
  { intros Hnone.
    destruct (import_document_spec d w) as (pre & ts & Hdec & _ & _ & Hall).
    rewrite (Hall Hnone) in Hdec.
    destruct (decodes_elem _ _ _ Hdec Hin) as [t Ht]. by rewrite Ht in Hbad. }
  rewrite import_document_walk in Hfails.
  destruct (import_loop_spec (walk d).1 w) as (pre & ts & Hdec & Hw & Hres).
  assert (∃ e, import_tasks (Document (JDict d)) w
               = (add_tasks w ts, UnexpectedError e)
               ∧ ((∃ failing rest,
                     (walk d).1 = pre ++ failing :: rest
                     ∧ _from_dict failing = Raise e)
                  ∨ ((walk d).1 = pre ∧ (walk d).2 = Some e))) as (e & Himp & Hat).
  { simpl. rewrite import_document_walk.
    destruct (import_loop (walk d).1 w) as [w1 [e |]]; simpl in *; subst w1.
    - exists e. split; [done |]. by left.
    - destruct (walk d).2 as [e |]; [| done].
      exists e. split; [done |]. by right. }
  exists e, pre, ts. split_and!; try done.
  - apply walk_records.
  - intros Hr. destruct (decodes_elem _ _ _ Hdec Hr) as [t Ht].
    by rewrite Ht in Hbad.
  - apply add_tasks_heap.
  - intros p. apply add_tasks_bucket.
  - split.
    + intros Hsame. apply add_tasks_same in Hsame as ->.
      by apply Forall2_nil_inv_r in Hdec.
    + intros ->. by apply Forall2_nil_inv_l in Hdec as ->.
Qed.

Lemma urgent_record_listed :
  JDict {[ "task_name" := JStr "call"; "description" := JStr "";
           "priority" := JStr "urgent"; "conclude_time" := JInt 5;
           "_is_completed" := JBool false ]} ∈ records urgent_document
  ∧ unrecognized_record
      (JDict {[ "task_name" := JStr "call"; "description" := JStr "";
                "priority" := JStr "urgent"; "conclude_time" := JInt 5;
                "_is_completed" := JBool false ]}).
Proof.
  split.
  - apply elem_of_cons. right. apply elem_of_cons. by left.
  - eexists _, "urgent". split_and!; reflexivity.
Qed.

Lemma import_unrecognized_priority_witness :
  ∃ e pre ts,
    import_tasks (Document (JDict urgent_document)) initial
    = (add_tasks initial ts, UnexpectedError e)
    ∧ decodes pre ts
    ∧ ((∃ failing rest,
          (walk urgent_document).1 = pre ++ failing :: rest
          ∧ _from_dict failing = Raise e)
       ∨ ((walk urgent_document).1 = pre ∧ (walk urgent_document).2 = Some e))
    ∧ ((∀ key v, key ∈ keys → urgent_document !! key = Some v →
                 ∃ l, v = JList l) →
       walk urgent_document = (records urgent_document, None))
    ∧ (JDict {[ "task_name" := JStr "call"; "description" := JStr "";
                "priority" := JStr "urgent"; "conclude_time" := JInt 5;
                "_is_completed" := JBool false ]} ∉ pre)
    ∧ heap (add_tasks initial ts) = heap initial ++ ts
    ∧ (∀ p, bucket (lm initial) p
            `prefix_of` bucket (lm (add_tasks initial ts)) p)
    ∧ (add_tasks initial ts = initial ↔ pre = []).
Proof.
  exact (import_unrecognized_priority urgent_document _ initial
           (proj1 urgent_record_listed) (proj2 urgent_record_listed)).
Defined.

(** C2, as it is specified, fails: [urgent_document] lists a record with
    the priority ["urgent"] after a well-formed one; importing it into the
    empty store reports the [KeyError], and the store has gained the task of
    the first record. *)
Lemma import_urgent_changes_store :
  (∃ r, r ∈ records urgent_document ∧ unrecognized_record r)
  ∧ import_tasks (Document (JDict urgent_document)) initial
    = (mkWorld [mkTask "report" (JStr "Q3") HIGH (JFloat 25) (JBool false)]
         (mkManager [] [] [0]),
       UnexpectedError (KeyError "URGENT"))
  ∧ task_high (lm (import_tasks (Document (JDict urgent_document)) initial).1)
    ≠ task_high (lm initial).
Proof.
  split_and!.
  - eexists. exact urgent_record_listed.
  - reflexivity.
  - discriminate.
Qed.

(** A record with the five fields is rebuilt when its name and duration
    pass the constructor and the upper-cased priority string is the name of
    a member. *)
Lemma from_dict_fields (d : gmap string json) (s : string) (p : Priority)
    (name : string) (descr time flag : json) :
  d !! "task_name" = Some (JStr name) →
  d !! "description" = Some descr →
  d !! "priority" = Some (JStr s) →
  d !! "conclude_time" = Some time →
  d !! "_is_completed" = Some flag →
  Priority_getitem (PyStr.upper s) = Some p →
  bad_name (PyData (JStr name)) = false →
  bad_time (PyData time) = false →
  _from_dict (JDict d) = Ok (mkTask name descr p time flag).
Proof.
  intros H1 H2 H3 H4 H5 Hp Hn Ht.
  unfold _from_dict, getitem. rewrite H1, H2, H3, H4, H5. simpl.
  unfold Priority_lookup. rewrite Hp. simpl.
  by rewrite (Task_init_accepts _ _ _ _ Hn Ht).
Qed.

(** C10: a record whose priority string is the name of a member of
    [Priority] in any mix of upper and lower case, and whose other fields
    the constructor accepts, is rebuilt by [_from_dict] as a task of that
    priority; [_to_dict] for its part writes the name as the enumeration
    has it, in upper case. *)
Theorem from_dict_any_case (d : gmap string json) (s : string) (p : Priority)
    (name : string) (descr time flag : json) :
  case_variant s (Priority_name p) = true →
  d !! "task_name" = Some (JStr name) →
  d !! "description" = Some descr →
  d !! "priority" = Some (JStr s) →
  d !! "conclude_time" = Some time →
  d !! "_is_completed" = Some flag →
  bad_name (PyData (JStr name)) = false →
  bad_time (PyData time) = false →
  _from_dict (JDict d) = Ok (mkTask name descr p time flag)
  ∧ getitem (_to_dict (mkTask name descr p time flag)) "priority"
    = Ok (JStr (Priority_name p))
  ∧ PyStr.upper (Priority_name p) = Priority_name p.
Proof.
  intros Hs H1 H2 H3 H4 H5 Hn Ht. split_and!.
  - by apply (from_dict_fields d s p); [.. | apply variant_names | |].
  - reflexivity.
  - apply upper_name.
Qed.

Lemma from_dict_any_case_witness :
  _from_dict (JDict mixed_case_record)
  = Ok (mkTask "report" (JStr "Q3") HIGH (JFloat 25) (JBool true)).
Proof.
  exact (proj1 (from_dict_any_case mixed_case_record "hiGh" HIGH "report"
                  (JStr "Q3") (JFloat 25) (JBool true)
                  eq_refl eq_refl eq_refl eq_refl eq_refl eq_refl
                  eq_refl eq_refl)).
Defined.

(** ** The invariant of the store *)

Lemma store_ok_initial : store_ok initial.
Proof.
  split; [constructor |].
  intros p task Hin. destruct p; by apply elem_of_nil in Hin.
Qed.

Lemma store_ok_heap_app (h : list Task) (m : TaskManager) (ts : list Task) :
  store_ok (mkWorld h m) → Forall valid_task ts → store_ok (mkWorld (h ++ ts) m).
Proof.
  intros [Hv Hb] Hts. split; simpl in *.
  - by apply Forall_app.
  - intros p task Hin. destruct (Hb p task Hin) as (t & Ht & Hp).
    exists t. split; [by apply lookup_app_l_Some | done].
Qed.

Lemma store_ok_add_task (w : World) (t : Task) :
  store_ok w → valid_task t → store_ok (add_task w t).
Proof.
  intros [Hv Hb] Ht. split; simpl.
  - apply Forall_app. split; [done | by constructor].
  - intros p task. rewrite bucket_push. intros Hin.
    apply elem_of_app in Hin as [Hin | Hin].
    + destruct (Hb p task Hin) as (t' & Ht' & Hp).
      exists t'. split; [by apply lookup_app_l_Some | done].
    + destruct (decide (priority t = p)) as [<- |]; [| by apply elem_of_nil in Hin].
      apply list_elem_of_singleton in Hin as ->.
      exists t. split; [| done]. by apply list_lookup_middle.
Qed.

Lemma store_ok_add_tasks (w : World) (ts : list Task) :
  store_ok w → Forall valid_task ts → store_ok (add_tasks w ts).
Proof.
  intros Hw Hts. revert w Hw.
  induction Hts as [| t ts Ht _ IH]; intros w Hw; [done |].
  simpl. apply IH. by apply store_ok_add_task.
Qed.

Lemma store_ok_step (w w' : World) : store_ok w → step w w' → store_ok w'.
Proof.
  intros Hok Hstep.
  destruct Hstep as [w name descr prio time t Hinit
                    | w task t operation m out Hheap Hman
                    | w task w' out Hcon
                    | w f].
  - simpl. destruct w as [h m]. apply store_ok_heap_app; [done |].
    constructor; [| constructor]. by eapply Task_init_valid.
  - destruct Hok as [Hv Hb]. split; [done |]. simpl.
    destruct operation.
    + rewrite list_manager_delete in Hman.
      destruct (contains (bucket (lm w) (priority t)) task);
        injection Hman as <- _; [| done].
      intros p task'. rewrite bucket_with_bucket.
      destruct (decide (priority t = p)) as [<- |]; [| apply Hb].
      intros Hin. apply Hb. by eapply remove_first_subseteq.
    + rewrite list_manager_add in Hman. injection Hman as <- _.
      intros p task'. rewrite bucket_push. intros Hin.
      apply elem_of_app in Hin as [Hin | Hin]; [by apply Hb |].
      destruct (decide (priority t = p)) as [<- |]; [| by apply elem_of_nil in Hin].
      apply list_elem_of_singleton in Hin as ->. eauto.
  - unfold conclude_at in Hcon.
    destruct (heap w !! task) as [t |] eqn:Ht; [| done]. simpl in Hcon.
    destruct (conclude_task t) as [t' m] eqn:Hc. injection Hcon as <- _.
    destruct (conclude_task_fields t) as (Hn & _ & Hp & Hc').
    rewrite Hc in Hn, Hp, Hc'. simpl in *.
    destruct Hok as [Hv Hb]. split; simpl.
    + apply Forall_insert; [done |].
      pose proof (Forall_lookup_1 _ _ _ _ Hv Ht) as [H1 H2].
      split; by rewrite ?Hn, ?Hc'.
    + intros p task' Hin. destruct (Hb p task' Hin) as (t0 & Ht0 & Hp0).
      destruct (decide (task = task')) as [<- | Hne].
      * exists t'. split; [| congruence].
        apply list_lookup_insert_eq. by eapply lookup_lt_Some.
      * exists t0. split; [| done]. by rewrite list_lookup_insert_ne.
  - destruct (import_tasks_adds f w) as (ts & -> & Hts).
    by apply store_ok_add_tasks.
Qed.

Lemma store_ok_reachable (w : World) : reachable w → store_ok w.
Proof.
  revert w. apply (rtc_ind_r store_ok initial).
  - apply store_ok_initial.
  - intros w1 w2 _ Hstep IH. by eapply store_ok_step.
Qed.

Lemma reachable_example : reachable example_world.
Proof.
  unfold reachable.
  (* report = Task("report", "Q3", Priority.HIGH, 25.0) *)
  eapply rtc_l.
  { apply (step_construct initial (PyData (JStr "report")) (JStr "Q3")
             (PyPriority HIGH) (PyData (JFloat 25))). reflexivity. }
  (* lm.list_manager(report, Operation.ADD) *)
  eapply rtc_l.
  { eapply (step_list_manager _ 0%nat _ ADD); reflexivity. }
  (* mail = Task("mail", "", Priority.LOW, 10) *)
  eapply rtc_l.
  { apply (step_construct _ (PyData (JStr "mail")) (JStr "")
             (PyPriority LOW) (PyData (JInt 10))). reflexivity. }
  (* lm.list_manager(mail, Operation.ADD) *)
  eapply rtc_l.
  { eapply (step_list_manager _ 1%nat _ ADD); reflexivity. }
  (* mail.conclude_task() *)
  eapply rtc_l.
  { eapply (step_conclude _ 1%nat). reflexivity. }
  apply rtc_refl.
Qed.

(** C4: in every state the program reaches from the empty store, by any
    sequence of additions and deletions (and of constructions, completions
    and imports between them), each entry of the low list is an object of
    priority [LOW], each entry of the mid list one of priority [MID], each
    entry of the high list one of priority [HIGH], and no object is in two
    of the lists. *)
Theorem buckets_match_priority (w : World) :
  reachable w →
  (∀ task, task ∈ task_low (lm w) →
     ∃ t, heap w !! task = Some t ∧ priority t = LOW)
  ∧ (∀ task, task ∈ task_mid (lm w) →
       ∃ t, heap w !! task = Some t ∧ priority t = MID)
  ∧ (∀ task, task ∈ task_high (lm w) →
       ∃ t, heap w !! task = Some t ∧ priority t = HIGH)
  ∧ (∀ task p q,
       task ∈ bucket (lm w) p → task ∈ bucket (lm w) q → p = q).
Proof.
  intros Hr. destruct (store_ok_reachable w Hr) as [_ Hb].
  split_and!.
  - apply (Hb LOW).
  - apply (Hb MID).
  - apply (Hb HIGH).
  - intros task p q Hp Hq.
    destruct (Hb p task Hp) as (t & Ht & <-).
    destruct (Hb q task Hq) as (t' & Ht' & <-).
    congruence.
Qed.

Lemma buckets_match_priority_witness :
  (∀ task, task ∈ task_low (lm example_world) →
     ∃ t, heap example_world !! task = Some t ∧ priority t = LOW)
  ∧ (∀ task, task ∈ task_mid (lm example_world) →
       ∃ t, heap example_world !! task = Some t ∧ priority t = MID)
  ∧ (∀ task, task ∈ task_high (lm example_world) →
       ∃ t, heap example_world !! task = Some t ∧ priority t = HIGH)
  ∧ (∀ task p q,
       task ∈ bucket (lm example_world) p →
       task ∈ bucket (lm example_world) q → p = q).
Proof.
  apply (buckets_match_priority example_world). exact reachable_example.
Defined.

(** ** [save_tasks], then [import_tasks] *)

Lemma tasks_at_app_heap (h ts : list Task) (ls : list loc) (old : list Task) :
  tasks_at h ls = Some old → tasks_at (h ++ ts) ls = Some old.
Proof.
  unfold tasks_at. rewrite !mapM_Some. intros H.
  eapply Forall2_impl; [exact H |]. intros l t. apply lookup_app_l_Some.
Qed.

Lemma tasks_at_app (h : list Task) (ls1 ls2 : list loc) (ts1 ts2 : list Task) :
  tasks_at h ls1 = Some ts1 → tasks_at h ls2 = Some ts2 →
  tasks_at h (ls1 ++ ls2) = Some (ts1 ++ ts2).
Proof. unfold tasks_at. rewrite !mapM_Some. apply Forall2_app. Qed.

Lemma bucket_tasks_add_task (w : World) (t : Task) (p : Priority)
    (old : list Task) :
  bucket_tasks w p = Some old →
  bucket_tasks (add_task w t) p
  = Some (old ++ filter (λ t', priority t' = p) [t]).
Proof.
  unfold bucket_tasks. intros Hold. simpl. rewrite bucket_push.
  apply tasks_at_app; [by apply tasks_at_app_heap |].
  rewrite filter_cons, filter_nil.
  destruct (decide (priority t = p)); [| done].
  unfold tasks_at. apply mapM_Some. constructor; [| constructor].
  by apply list_lookup_middle.
Qed.

Lemma bucket_tasks_add_tasks (w : World) (ts : list Task) (p : Priority)
    (old : list Task) :
  bucket_tasks w p = Some old →
  bucket_tasks (add_tasks w ts) p
  = Some (old ++ filter (λ t, priority t = p) ts).
Proof.
  revert w old. induction ts as [| t ts IH]; intros w old Hold; simpl.
  - by rewrite app_nil_r.
  - rewrite (IH _ _ (bucket_tasks_add_task _ t _ _ Hold)).
    rewrite <- app_assoc. f_equal.
    rewrite !filter_cons, filter_nil. by destruct (decide (priority t = p)).
Qed.

Lemma filter_all {A} (P : A → Prop) `{∀ x, Decision (P x)} (l : list A) :
  Forall P l → filter P l = l.
Proof.
  induction 1 as [| x l Hx _ IH]; [done |]. by rewrite filter_cons_True, IH.
Qed.

Lemma filter_none {A} (P : A → Prop) `{∀ x, Decision (P x)} (l : list A) :
  Forall (λ x, ¬ P x) l → filter P l = [].
Proof.
  induction 1 as [| x l Hx _ IH]; [done |]. by rewrite filter_cons_False, IH.
Qed.

Lemma store_ok_tasks_at (w : World) (p : Priority) (ls : list loc) :
  store_ok w → ls ⊆ bucket (lm w) p →
  ∃ ts, tasks_at (heap w) ls = Some ts
        ∧ Forall (λ t, priority t = p) ts ∧ Forall valid_task ts.
Proof.
  intros [Hv Hb]. induction ls as [| l ls IH]; intros Hsub.
  - exists []. by split_and!.
  - destruct IH as (ts & Hts & Hp & Hval); [set_solver |].
    destruct (Hb p l) as (t & Ht & Hpt); [set_solver |].
    exists (t :: ts). split_and!.
    + unfold tasks_at in *. apply mapM_Some. constructor; [done |].
      by apply mapM_Some.
    + by constructor.
    + constructor; [| done]. exact (Forall_lookup_1 _ _ _ _ Hv Ht).
Qed.

Lemma store_ok_bucket_tasks (w : World) (p : Priority) :
  store_ok w →
  ∃ ts, bucket_tasks w p = Some ts
        ∧ Forall (λ t, priority t = p) ts ∧ Forall valid_task ts.
Proof. intros Hok. by apply store_ok_tasks_at. Qed.

(** One record: what [_to_dict] writes, [_from_dict] reads back. *)
Lemma from_dict_to_dict (t : Task) :
  valid_task t → _from_dict (_to_dict t) = Ok t.
Proof.
  intros [Hn Ht]. destruct t as [name descr p time flag]. simpl in *.
  apply (from_dict_fields _ (Priority_name p) p name descr time flag);
    try reflexivity; try done.
  by rewrite upper_name, getitem_name.
Qed.

Lemma decodes_to_dict (ts : list Task) :
  Forall valid_task ts → decodes (_to_dict <$> ts) ts.
Proof.
  induction 1 as [| t ts Ht _ IH]; [constructor |].
  rewrite fmap_cons. constructor; [by apply from_dict_to_dict | done].
Qed.

Lemma tasks_at_lookup (h : list Task) (ls : list loc) (ts : list Task) :
  tasks_at h ls = Some ts ↔ Forall2 (λ task t, h !! task = Some t) ls ts.
Proof. unfold tasks_at. apply mapM_Some. Qed.


Lemma document_lists (highs mids lows : list Task) (key : string) (v : json) :
  match document_of highs mids lows with
  | JDict d => d !! key = Some v
  | _ => False
  end →
  ∃ l, v = JList l.
Proof.
  simpl. intros Hv.
  apply lookup_insert_Some in Hv as [[_ <-] | [_ Hv]]; [eauto |].
  apply lookup_insert_Some in Hv as [[_ <-] | [_ Hv]]; [eauto |].
  apply lookup_singleton_Some in Hv as [_ <-]. eauto.
Qed.

(** What [save_tasks] builds is the dictionary of the tasks of the three
    lists. *)
Lemma encode_some (w : World) (data : json) :
  encode w = Some data →
  ∃ highs mids lows,
    bucket_tasks w HIGH = Some highs
    ∧ bucket_tasks w MID = Some mids
    ∧ bucket_tasks w LOW = Some lows
    ∧ data = document_of highs mids lows.
Proof.
  unfold encode, bucket_tasks. simpl.
  destruct (tasks_at (heap w) (task_high (lm w))) as [highs |]; [| done].
  destruct (tasks_at (heap w) (task_mid (lm w))) as [mids |]; [| done].
  destruct (tasks_at (heap w) (task_low (lm w))) as [lows |]; [| done].
  simpl. intros [= <-]. by exists highs, mids, lows.
Qed.

(** The general form of the round trip, for every store that satisfies the
    invariant: the dictionary that [save_tasks] builds, read by the loops of
    [import_tasks] into an empty manager. *)
Lemma roundtrip_store_ok (w : World) (h0 : list Task) :
  store_ok w →
  ∃ highs mids lows,
    bucket_tasks w HIGH = Some highs
    ∧ bucket_tasks w MID = Some mids
    ∧ bucket_tasks w LOW = Some lows
    ∧ encode w = Some (document_of highs mids lows)
    ∧ import_document (document_of highs mids lows)
        (mkWorld h0 TaskManager_init)
      = (add_tasks (mkWorld h0 TaskManager_init) (highs ++ mids ++ lows), None)
    ∧ ∀ p, ∃ ts,
        bucket_tasks w p = Some ts
        ∧ bucket_tasks
            (add_tasks (mkWorld h0 TaskManager_init) (highs ++ mids ++ lows)) p
          = Some ts.
Proof.
  intros Hok.
  destruct (store_ok_bucket_tasks w HIGH Hok) as (highs & Hh & Hph & Hvh).
  destruct (store_ok_bucket_tasks w MID Hok) as (mids & Hm & Hpm & Hvm).
  destruct (store_ok_bucket_tasks w LOW Hok) as (lows & Hl & Hpl & Hvl).
  exists highs, mids, lows. split_and!; [done | done | done | | |].
  - unfold bucket_tasks in Hh, Hm, Hl. simpl in Hh, Hm, Hl.
    unfold encode. by rewrite Hh, Hm, Hl.
  - unfold document_of. rewrite import_document_records.
    + unfold records, listed.
      rewrite (import_loop_decodes _ (highs ++ mids ++ lows)); [done |].
      apply Forall2_app; [by apply decodes_to_dict |].
      apply Forall2_app; by apply decodes_to_dict.
    + intros key v _ Hv. by apply (document_lists highs mids lows key).
  - intros p.
    rewrite (bucket_tasks_add_tasks _ _ p []) by (by destruct p).
    rewrite !filter_app. simpl.
    destruct p.
    * exists lows. split; [done |].
      rewrite (filter_none _ highs), (filter_none _ mids), (filter_all _ lows);
        [done | done | |].
      -- eapply Forall_impl; [exact Hpm |]. by intros t ->.
      -- eapply Forall_impl; [exact Hph |]. by intros t ->.
    * exists mids. split; [done |].
      rewrite (filter_none _ highs), (filter_all _ mids), (filter_none _ lows);
        [by rewrite app_nil_r | | done |].
      -- eapply Forall_impl; [exact Hpl |]. by intros t ->.
      -- eapply Forall_impl; [exact Hph |]. by intros t ->.
    * exists highs. split; [done |].
      rewrite (filter_all _ highs), (filter_none _ mids), (filter_none _ lows);
        [by rewrite app_nil_r | | | done].
      -- eapply Forall_impl; [exact Hpl |]. by intros t ->.
      -- eapply Forall_impl; [exact Hpm |]. by intros t ->.
Qed.

Lemma save_tasks_written (json_dump : json → option exn) (w : World)
    (old : file) (data : json) :
  encode w = Some data → json_dump data = None →
  save_tasks json_dump w old true = Some (Document data, Ok Exported).
Proof. intros He Hd. unfold save_tasks. rewrite He. simpl. by rewrite Hd. Qed.


Lemma save_tasks_exported (json_dump : json → option exn) (w : World)
    (old : file) (data : json) :
  save_tasks json_dump w old true = Some (Document data, Ok Exported) →
  encode w = Some data ∧ json_dump data = None.
Proof.
  unfold save_tasks. destruct (encode w) as [data' |]; [| done]. simpl.
  destruct (json_dump data') as [e |] eqn:Hd.
  - by destruct e.
  - by intros [= <-].
Qed.

Lemma save_tasks_unwritable (json_dump : json → option exn) (w : World)
    (old : file) :
  store_ok w → save_tasks json_dump w old false = Some (old, Ok SaveError).
Proof.
  intros Hok.
  destruct (roundtrip_store_ok w [] Hok) as (? & ? & ? & _ & _ & _ & He & _).
  unfold save_tasks. by rewrite He.
Qed.



(** The round trip of [example_world] through the file, evaluated: the
    document that is written, and the store that importing it gives. *)
Example save_import_example :
  save_tasks digit_limit_dump example_world NoFile true
  = Some (Document
            (JDict {[ "high" := JList [
                        JDict {[ "task_name" := JStr "report";
                                 "description" := JStr "Q3";
                                 "priority" := JStr "HIGH";
                                 "conclude_time" := JFloat 25;
                                 "_is_completed" := JBool false ]} ];
                      "mid" := JList [];
                      "low" := JList [
                        JDict {[ "task_name" := JStr "mail";
                                 "description" := JStr "";
                                 "priority" := JStr "LOW";
                                 "conclude_time" := JInt 10;
                                 "_is_completed" := JBool true ]} ] ]}),
          Ok Exported)
  ∧ ∀ data, encode example_world = Some data →
      import_tasks (Document data) initial
      = (mkWorld [ mkTask "report" (JStr "Q3") HIGH (JFloat 25) (JBool false);
                   mkTask "mail" (JStr "") LOW (JInt 10) (JBool true) ]
           (mkManager [1] [] [0]),
         Imported).
Proof.
  split; [by vm_compute |]. intros data [= <-]. by vm_compute.
Qed.

(** ** [create_task] *)

Lemma create_task_ok (w : World) name descr prio time (t : Task) :
  Task_init name descr prio time = Ok t →
  create_task w name descr prio time = Ok (add_task w t, length (heap w)).
Proof.
  intros H. unfold create_task. rewrite H. simpl.
  by rewrite list_manager_add.
Qed.

Lemma create_task_raises (w : World) name descr prio time :
  raised (Task_init name descr prio time) →
  raised (create_task w name descr prio time).
Proof.
  unfold create_task. by destruct (Task_init name descr prio time).
Qed.

Lemma create_task_reachable (w : World) name descr prio time w' task :
  reachable w →
  create_task w name descr prio time = Ok (w', task) →
  reachable w'.
Proof.
  intros Hr Hc.
  destruct (Task_init name descr prio time) as [t | e] eqn:E.
  - rewrite (create_task_ok _ _ _ _ _ _ E) in Hc. injection Hc as <- <-.
    apply (rtc_r _ (mkWorld (heap w ++ [t]) (lm w))).
    + apply (rtc_r _ w); [exact Hr |].
      exact (step_construct w _ _ _ _ t E).
    + apply (step_list_manager (mkWorld (heap w ++ [t]) (lm w))
               (length (heap w)) t ADD _ None).
      * simpl. by apply list_lookup_middle.
      * apply list_manager_add.
  - unfold create_task in Hc. by rewrite E in Hc.
Qed.

(** ** [save_tasks] on a value that [json.dump] refuses *)



(** * Further properties of [task_manager.py] *)

(** ** [create_task] and [list_manager] composed *)

(** X1: when [create_task] returns, its arguments passed the three checks
    of the constructor: the name was a string that is not blank, the
    priority a member of [Priority], and the duration a number that is not
    [<= 0]; the object it returns is new, has the given attributes and the
    flag [False], and was appended to the end of the list of its priority;
    the other two lists and every object that existed are as before. *)
Theorem create_task_appends (w w' : World) (name : pyval) (descr : json)
    (prio time : pyval) (task : loc) :
  create_task w name descr prio time = Ok (w', task) →
  ∃ n p t,
    name = PyData (JStr n) ∧ prio = PyPriority p ∧ time = PyData t
    ∧ PyStr.strip n ≠ ""
    ∧ is_number t = true ∧ le_zero t = false
    ∧ task = length (heap w)
    ∧ heap w' = heap w ++ [mkTask n descr p t (JBool false)]
    ∧ bucket (lm w') p = bucket (lm w) p ++ [task]
    ∧ ∀ q, q ≠ p → bucket (lm w') q = bucket (lm w) q.
Proof.
  intros Hc.
  destruct (Task_init name descr prio time) as [t0 | e] eqn:E.
  - rewrite (create_task_ok _ _ _ _ _ _ E) in Hc. injection Hc as <- <-.
    apply Task_init_ok in E as (n & p & t & -> & -> & -> & Hn & Ht & ->).
    exists n, p, t. simpl in Ht.
    apply orb_false_elim in Ht as [Hnum Hpos].
    apply negb_false_iff in Hnum.
    simpl. split_and!; try done.
    + simpl in Hn. intros Hblank. by rewrite Hblank in Hn.
    + rewrite bucket_push. by rewrite decide_True.
    + intros q Hq. rewrite bucket_push, decide_False by done.
      by rewrite app_nil_r.
  - unfold create_task in Hc. by rewrite E in Hc.
Qed.

Lemma create_task_appends_witness :
  ∃ n p t,
    PyData (JStr "mail") = PyData (JStr n) ∧ PyPriority LOW = PyPriority p
    ∧ PyData (JInt 10) = PyData t
    ∧ PyStr.strip n ≠ ""
    ∧ is_number t = true ∧ le_zero t = false
    ∧ 2%nat = length (heap example_world)
    ∧ heap (add_task example_world
              (mkTask "mail" (JStr "") LOW (JInt 10) (JBool false)))
      = heap example_world ++ [mkTask n (JStr "") p t (JBool false)]
    ∧ bucket (lm (add_task example_world
                    (mkTask "mail" (JStr "") LOW (JInt 10) (JBool false)))) p
      = bucket (lm example_world) p ++ [2%nat]
    ∧ ∀ q, q ≠ p →
        bucket (lm (add_task example_world
                      (mkTask "mail" (JStr "") LOW (JInt 10) (JBool false)))) q
        = bucket (lm example_world) q.
Proof.
  apply (create_task_appends example_world _ (PyData (JStr "mail")) (JStr "")
           (PyPriority LOW) (PyData (JInt 10)) 2).
  reflexivity.
Defined.

(** The third check is part of it: a duration of zero is refused, and no
    object is made. *)
Example create_task_refuses_zero :
  create_task example_world (PyData (JStr "mail")) (JStr "") (PyPriority LOW)
    (PyData (JInt 0))
  = Raise (ValueError "Duration must be a positive number.").
Proof. reflexivity. Qed.

Lemma remove_first_snoc (task : loc) (l : list loc) :
  task ∉ l → remove_first task (l ++ [task]) = l.
Proof.
  induction l as [| x l IH]; intros Hnot; simpl.
  - by rewrite decide_True.
  - apply not_elem_of_cons in Hnot as [Hne Hnot].
    rewrite decide_False by done. by rewrite IH.
Qed.

Lemma with_bucket_push (self : TaskManager) (p : Priority) (task : loc) :
  with_bucket (push self p task) p (bucket self p) = self.
Proof. by destruct self, p. Qed.

(** X2: for an object that is not in the list of its priority, adding it
    and then deleting it gives back the manager as it was. *)
Theorem add_then_delete (self : TaskManager) (task : loc) (t : Task) :
  (task ∉ bucket self (priority t)) →
  ∃ m,
    list_manager self task t ADD = Ok (m, None)
    ∧ list_manager m task t DELETE
      = Ok (self, Some (Removed (task_name t) (Priority_name (priority t)))).
Proof.
  intros Hnot. exists (push self (priority t) task).
  split; [apply list_manager_add |].
  rewrite list_manager_delete, bucket_push, decide_True by done.
  unfold contains. rewrite bool_decide_eq_true_2 by set_solver.
  by rewrite remove_first_snoc, with_bucket_push.
Qed.

Lemma add_then_delete_witness :
  ∃ m,
    list_manager (mkManager [3] [1] [0; 2]) 4
      (mkTask "call" (JStr "") HIGH (JInt 5) (JBool false)) ADD
    = Ok (m, None)
    ∧ list_manager m 4
        (mkTask "call" (JStr "") HIGH (JInt 5) (JBool false)) DELETE
      = Ok (mkManager [3] [1] [0; 2], Some (Removed "call" "HIGH")).
Proof.
  apply (add_then_delete (mkManager [3] [1] [0; 2]) 4
           (mkTask "call" (JStr "") HIGH (JInt 5) (JBool false))).
  simpl. compute_done.
Defined.

Lemma occurrences_app (task : loc) (l1 l2 : list loc) :
  occurrences task (l1 ++ l2) = occurrences task l1 + occurrences task l2.
Proof. unfold occurrences. by rewrite filter_app, length_app. Qed.

Lemma occurrences_cons (task x : loc) (l : list loc) :
  occurrences task (x :: l)
  = (if decide (x = task) then 1 else 0) + occurrences task l.
Proof.
  unfold occurrences. rewrite filter_cons. by destruct (decide (x = task)).
Qed.

(** X3: [list_manager] never looks for duplicates. [ADD] raises the number
    of times the object is in the list of its priority by one, also when it
    is there already; [DELETE] of an object that is listed lowers it by one
    and no more; neither changes how often any other object is listed, nor
    the other two lists. *)
Theorem list_manager_counts (self : TaskManager) (task : loc) (t : Task) :
  (∃ m, list_manager self task t ADD = Ok (m, None)
        ∧ ∀ q x, occurrences x (bucket m q)
                 = occurrences x (bucket self q)
                   + (if decide (priority t = q ∧ task = x) then 1 else 0))
  ∧ (task ∈ bucket self (priority t) →
     ∃ m msg, list_manager self task t DELETE = Ok (m, msg)
        ∧ ∀ q x, occurrences x (bucket m q)
                   + (if decide (priority t = q ∧ task = x) then 1 else 0)
                 = occurrences x (bucket self q)).
Proof.
  split.
  - exists (push self (priority t) task). split; [apply list_manager_add |].
    intros q x. rewrite bucket_push, occurrences_app.
    destruct (decide (priority t = q)) as [<- | Hq].
    + rewrite occurrences_cons. unfold occurrences at 3. simpl.
      destruct (decide (task = x)).
      * by rewrite decide_True.
      * by rewrite decide_False by tauto.
    + rewrite decide_False by tauto. done.
  - intros Hin.
    destruct (remove_first_split _ _ Hin) as (before & after & Hl & Hnot & Hrm).
    eexists _, _. split.
    + rewrite list_manager_delete. unfold contains.
      by rewrite bool_decide_eq_true_2.
    + intros q x. rewrite bucket_with_bucket.
      destruct (decide (priority t = q)) as [<- | Hq].
      * rewrite Hrm, Hl, !occurrences_app, occurrences_cons.
        destruct (decide (task = x)).
        -- rewrite decide_True by done. lia.
        -- rewrite decide_False by tauto. lia.
      * rewrite decide_False by tauto. lia.
Qed.

(** ** Records *)

(** X4: [_from_dict] returns a task exactly for the records that are
    dictionaries with the five fields, a non-blank string for the name, a
    string that is the name of a member of [Priority] in some letter case
    for the priority, and a number that is not [<= 0] for the duration;
    every other value raises. Description and flag may be any value. *)
Theorem from_dict_accepts_iff (r : json) :
  (∃ t, _from_dict r = Ok t) ↔ well_formed_record r.
Proof.
  split.
  - intros [t Ht].
    apply from_dict_ok in Ht
      as (d & name & descr & s & time & flag
          & -> & H1 & H2 & H3 & H4 & H5 & Hn & Hp & Htime & _).
    exists d, name, descr, s, (priority t), time, flag. split_and!; done.
  - apply from_dict_well_formed.
Qed.

(** X5: for a task with a non-blank name and a duration the constructor
    accepts, whatever its description and flag, [_from_dict] gives back
    from the dictionary of [_to_dict] the task itself. *)
Theorem record_roundtrip (t : Task) :
  valid_task t → _from_dict (_to_dict t) = Ok t.
Proof. apply from_dict_to_dict. Qed.

Lemma record_roundtrip_witness :
  _from_dict (_to_dict (mkTask "mail" (JStr "") LOW (JInt 10) (JBool true)))
  = Ok (mkTask "mail" (JStr "") LOW (JInt 10) (JBool true)).
Proof.
  apply (record_roundtrip (mkTask "mail" (JStr "") LOW (JInt 10) (JBool true))).
  split; reflexivity.
Defined.

(** ** [import_tasks] and [save_tasks] *)

(** X6: whatever the file holds, [import_tasks] returns with a message and
    only ever adds: the objects that existed are unchanged, and each list
    keeps its entries, in order, at its front. What it adds are tasks that
    went through [__init__]. When the file is absent, is not JSON, or holds
    a document that is not a dictionary, nothing is added and the message is
    not the success message. *)
Theorem import_tasks_only_adds (f : file) (w : World) :
  (∃ ts, (import_tasks f w).1 = add_tasks w ts
         ∧ heap (import_tasks f w).1 = heap w ++ ts
         ∧ Forall valid_task ts)
  ∧ (∀ p, bucket (lm w) p `prefix_of` bucket (lm (import_tasks f w).1) p)
  ∧ (f = NoFile ∨ f = Garbage ∨ (∃ data, f = Document data ∧ ∀ d, data ≠ JDict d) →
     (import_tasks f w).1 = w ∧ (import_tasks f w).2 ≠ Imported).
Proof.
  destruct (import_tasks_adds f w) as (ts & Hw & Hts).
  split_and!.
  - exists ts. split_and!; [done | | done]. rewrite Hw. apply add_tasks_heap.
  - intros p. rewrite Hw. apply add_tasks_bucket.
  - intros [-> | [-> | (data & -> & Hnot)]]; [done | done |].
    simpl. by rewrite (import_document_not_dict _ _ Hnot).
Qed.

Lemma import_well_formed (d : gmap string json) (ts : list Task) (w : World) :
  well_formed_document d → decodes (records d) ts →
  import_tasks (Document (JDict d)) w = (add_tasks w ts, Imported).
Proof.
  intros Hwf Hts. simpl. rewrite import_document_records.
  - by rewrite (import_loop_decodes _ _ _ Hts).
  - intros key v Hin Hv. destruct (Hwf key v Hin Hv) as (l & -> & _). eauto.
Qed.

(** X7: [import_tasks] does not clear the lists and does not look for
    duplicates: importing a well-formed document a second time adds a second
    copy of every task of the document, as new objects, after the first. *)
Theorem import_twice (d : gmap string json) (w : World) :
  well_formed_document d →
  ∃ ts,
    decodes (records d) ts
    ∧ import_tasks (Document (JDict d))
        (import_tasks (Document (JDict d)) w).1
      = (add_tasks w (ts ++ ts), Imported)
    ∧ heap (add_tasks w (ts ++ ts)) = heap w ++ ts ++ ts.
Proof.
  intros Hwf.
  destruct (decodes_well_formed _ (records_well_formed _ Hwf)) as [ts Hts].
  exists ts. split_and!; [done | |].
  - rewrite (import_well_formed d ts w Hwf Hts). cbn [fst].
    rewrite (import_well_formed d ts _ Hwf Hts). by rewrite add_tasks_app.
  - apply add_tasks_heap.
Qed.

Lemma import_twice_witness :
  ∃ ts,
    decodes (records mid_only_document) ts
    ∧ import_tasks (Document (JDict mid_only_document))
        (import_tasks (Document (JDict mid_only_document)) initial).1
      = (add_tasks initial (ts ++ ts), Imported)
    ∧ heap (add_tasks initial (ts ++ ts)) = heap initial ++ ts ++ ts.
Proof.
  apply (import_twice mid_only_document initial). exact mid_only_well_formed.
Defined.

(** X8: the key under which a record stands does not decide its list:
    [import_tasks] puts every task into the list of the task's own priority.
    After the import of a well-formed document, each list holds what it held
    followed by the tasks of that priority among all records of the
    document, in the order high, mid, low of the keys. *)
Theorem import_by_own_priority (d : gmap string json) (w : World) :
  well_formed_document d →
  ∃ ts,
    decodes (records d) ts
    ∧ ∀ p old,
        bucket_tasks w p = Some old →
        bucket_tasks (import_tasks (Document (JDict d)) w).1 p
        = Some (old ++ filter (λ t, priority t = p) ts).
Proof.
  intros Hwf.
  destruct (decodes_well_formed _ (records_well_formed _ Hwf)) as [ts Hts].
  exists ts. split; [done |]. intros p old Hold.
  rewrite (import_well_formed d ts w Hwf Hts). cbn [fst].
  by apply bucket_tasks_add_tasks.
Qed.

Lemma import_by_own_priority_witness :
  ∃ ts,
    decodes (records mid_only_document) ts
    ∧ ∀ p old,
        bucket_tasks example_world p = Some old →
        bucket_tasks
          (import_tasks (Document (JDict mid_only_document)) example_world).1 p
        = Some (old ++ filter (λ t, priority t = p) ts).
Proof.
  apply (import_by_own_priority mid_only_document example_world).
  exact mid_only_well_formed.
Defined.

Lemma encode_bucket_tasks (w1 w2 : World) :
  (∀ p, bucket_tasks w1 p = bucket_tasks w2 p) → encode w1 = encode w2.
Proof.
  intros H. unfold encode.
  pose proof (H HIGH) as Hh. pose proof (H MID) as Hm. pose proof (H LOW) as Hl.
  unfold bucket_tasks in Hh, Hm, Hl. simpl in *. by rewrite Hh, Hm, Hl.
Qed.

(** X9: saving, importing into an empty manager and saving again writes
    the same document. In every state the program reaches in which
    [save_tasks] has written the file ([json.dump] raised nothing), the file
    holds the records of the objects of the three lists, and [save_tasks] on
    the store imported from it writes the document it was imported from. *)
Theorem save_import_save (json_dump : json → option exn) (w : World)
    (h0 : list Task) (old : file) (data : json) :
  reachable w →
  save_tasks json_dump w old true = Some (Document data, Ok Exported) →
  (∃ highs mids lows,
     Forall2 (λ task t, heap w !! task = Some t) (task_high (lm w)) highs
     ∧ Forall2 (λ task t, heap w !! task = Some t) (task_mid (lm w)) mids
     ∧ Forall2 (λ task t, heap w !! task = Some t) (task_low (lm w)) lows
     ∧ data = JDict {[ "high" := JList (_to_dict <$> highs);
                       "mid" := JList (_to_dict <$> mids);
                       "low" := JList (_to_dict <$> lows) ]})
  ∧ save_tasks json_dump
      (import_tasks (Document data) (mkWorld h0 TaskManager_init)).1
      (Document data) true
    = Some (Document data, Ok Exported).
Proof.
  intros Hr Hsave. apply save_tasks_exported in Hsave as [Henc Hdump].
  destruct (roundtrip_store_ok w h0 (store_ok_reachable w Hr))
    as (highs & mids & lows & Hh & Hm & Hl & Henc' & Himp & Hlists).
  rewrite Henc in Henc'. injection Henc' as ->.
  split.
  - exists highs, mids, lows. split_and!; try by apply tasks_at_lookup.
    reflexivity.
  - apply save_tasks_written; [| done].
    rewrite <- Henc. apply encode_bucket_tasks. intros p.
    cbn [import_tasks]. rewrite Himp. cbn [fst].
    destruct (Hlists p) as (ts & -> & ->). done.
Qed.

Lemma save_import_save_witness :
  (∃ highs mids lows,
     Forall2 (λ task t, heap example_world !! task = Some t)
       (task_high (lm example_world)) highs
     ∧ Forall2 (λ task t, heap example_world !! task = Some t)
         (task_mid (lm example_world)) mids
     ∧ Forall2 (λ task t, heap example_world !! task = Some t)
         (task_low (lm example_world)) lows
     ∧ document_of [mkTask "report" (JStr "Q3") HIGH (JFloat 25) (JBool false)]
         [] [mkTask "mail" (JStr "") LOW (JInt 10) (JBool true)]
       = JDict {[ "high" := JList (_to_dict <$> highs);
                  "mid" := JList (_to_dict <$> mids);
                  "low" := JList (_to_dict <$> lows) ]})
  ∧ save_tasks digit_limit_dump
      (import_tasks
         (Document
            (document_of
               [mkTask "report" (JStr "Q3") HIGH (JFloat 25) (JBool false)]
               [] [mkTask "mail" (JStr "") LOW (JInt 10) (JBool true)]))
         initial).1
      (Document
         (document_of
            [mkTask "report" (JStr "Q3") HIGH (JFloat 25) (JBool false)]
            [] [mkTask "mail" (JStr "") LOW (JInt 10) (JBool true)]))
      true
    = Some (Document
              (document_of
                 [mkTask "report" (JStr "Q3") HIGH (JFloat 25) (JBool false)]
                 [] [mkTask "mail" (JStr "") LOW (JInt 10) (JBool true)]),
            Ok Exported).
Proof.
  apply (save_import_save digit_limit_dump example_world [] NoFile).
  - exact reachable_example.
  - by vm_compute.
Defined.

(** ** [Task.start_pomodoro] at its bounds *)

Lemma range_empty (n : Z) : (n ≤ 0)%Z → range n = [].
Proof. intros H. unfold range. by replace (Z.to_nat n) with 0%nat by lia. Qed.

(** X10: with a number of cycles that is zero or negative, no timer runs,
    neither for work nor for a break, and the run goes straight to the
    closing question, which can still complete the task. *)
Theorem pomodoro_no_cycles (self : Task) (break_time_minutes : json)
    (prompt_message : string) (repeat_times : Z) (answers : list (option Z)) :
  (repeat_times ≤ 0)%Z →
  pomodoro_cycles self break_time_minutes prompt_message repeat_times = []
  ∧ start_pomodoro self break_time_minutes prompt_message repeat_times
      (Some 1%Z :: answers)
    = Some ([], (conclude_task self).1, [(conclude_task self).2]).
Proof.
  intros Hn.
  assert (pomodoro_cycles self break_time_minutes prompt_message repeat_times
          = []) as Hc.
  { unfold pomodoro_cycles. by rewrite (range_empty _ Hn). }
  split; [done |].
  unfold start_pomodoro. rewrite Hc. simpl.
  by destruct (conclude_task self).
Qed.

Lemma pomodoro_no_cycles_witness :
  pomodoro_cycles (mkTask "report" (JStr "Q3") HIGH (JInt 20) (JBool false))
    (JInt 5) "Break" 0
  = []
  ∧ start_pomodoro (mkTask "report" (JStr "Q3") HIGH (JInt 20) (JBool false))
      (JInt 5) "Break" 0 [Some 1%Z]
    = Some ([], mkTask "report" (JStr "Q3") HIGH (JInt 20) (JBool true),
            [CompletedNow "report"]).
Proof.
  apply (pomodoro_no_cycles
           (mkTask "report" (JStr "Q3") HIGH (JInt 20) (JBool false))
           (JInt 5) "Break" 0 []).
  lia.
Defined.

(** * Properties of [main.py] *)

Lemma bind_returns {A B} (r : outcome A) (k : A → outcome B) (b : B) :
  r ≫= k = Returns b → ∃ a, r = Returns a ∧ k a = Returns b.
Proof. destruct r as [a | e |]; [eauto | done | done]. Qed.

Lemma objects_at_spec (h : list Task) (ls : list loc) (es : list (loc * Task)) :
  objects_at h ls = Some es ↔ Forall2 (λ l e, e.1 = l ∧ h !! l = Some e.2) ls es.
Proof.
  unfold objects_at. rewrite mapM_Some. split; intros H.
  - eapply Forall2_impl; [exact H |]. intros l [l' t] Hl. simpl in *.
    destruct (h !! l) as [t' |]; simpl in *; [| done]. by injection Hl as <- <-.
  - eapply Forall2_impl; [exact H |]. intros l [l' t] [<- Hl]. simpl in *.
    by rewrite Hl.
Qed.









(** What the two loops find is an object of one of the lists. *)
Lemma find_task_found (w : World) (name : string) (task : loc) (t : Task) :
  find_task w name = Returns (Some (task, t)) →
  heap w !! task = Some t ∧ task_name t = name
  ∧ ∃ p, task ∈ bucket (lm w) p.
Proof.
  unfold find_task, entries. intros H.
  destruct (objects_at (heap w) (task_low (lm w))) as [el |] eqn:Hel; [| done].
  destruct (objects_at (heap w) (task_mid (lm w))) as [em |] eqn:Hem; [| done].
  destruct (objects_at (heap w) (task_high (lm w))) as [eh |] eqn:Heh; [| done].
  simpl in H.
  destruct (list_find (named name) (el ++ em ++ eh)) as [[i e] |] eqn:Hf;
    [| done].
  simpl in H. injection H as ->.
  apply list_find_Some in Hf as (Hi & Hn & _).
  assert (∀ ls es, objects_at (heap w) ls = Some es → (task, t) ∈ es →
            heap w !! task = Some t ∧ task ∈ ls) as Hin.
  { intros ls es Hes Hel'. apply objects_at_spec in Hes.
    apply list_elem_of_lookup in Hel' as [j Hj].
    destruct (Forall2_lookup_r _ _ _ _ _ Hes Hj) as (l & Hl & <- & Ht).
    split; [done |]. by eapply list_elem_of_lookup_2. }
  apply list_elem_of_lookup_2 in Hi.
  rewrite !elem_of_app in Hi.
  destruct Hi as [Hi | [Hi | Hi]].
  - destruct (Hin _ _ Hel Hi). split_and!; [done | done | by exists LOW].
  - destruct (Hin _ _ Hem Hi). split_and!; [done | done | by exists MID].
  - destruct (Hin _ _ Heh Hi). split_and!; [done | done | by exists HIGH].
Qed.



Lemma bad_name_strip (name : string) :
  bad_name (PyData (JStr name)) = String.eqb (PyStr.strip name) "".
Proof. simpl. by destruct (String.eqb (PyStr.strip name) ""). Qed.

Lemma create_task_typed (w : World) (name description : string) (p : Priority)
    (f : float) :
  create_task w (PyData (JStr name)) (JStr description) (PyPriority p)
    (PyData (JFloat f))
  = if String.eqb (PyStr.strip name) "" then
      Raise (ValueError "Task name cannot be empty.")
    else if PrimFloat.leb f 0 then
      Raise (ValueError "Duration must be a positive number.")
    else
      Ok (add_task w (mkTask name (JStr description) p (JFloat f) (JBool false)),
          length (heap w)).
Proof.
  unfold create_task, Task_init. rewrite bad_name_strip.
  destruct (String.eqb (PyStr.strip name) ""); [done |]. simpl.
  destruct (PrimFloat.leb f 0); [done |]. simpl.
  by rewrite list_manager_add.
Qed.

Ltac not_listed :=
  let H := fresh in
  intros H;
  repeat (apply elem_of_cons in H as [H | H]; [discriminate H |]);
  by apply elem_of_nil in H.

Section MenuProofs.

Variable float_of : string → option float.
Variable int_of : string → option Z.
Variable writable : bool.
Variable json_dump : json → option exn.

(** X14: [create_new_task] with a name and a description that are not
    blank, a choice 1, 2 or 3 and a duration that [float] reads and that is
    not [<= 0] appends one new task to the list of the chosen priority: its
    name and description are the lines as typed (not stripped), its
    duration the float, its flag [False]. *)
Theorem create_new_task_creates (s : Session)
    (name description choice text enter : string) (rest : list string)
    (p : Priority) (f : float) :
  PyStr.strip name ≠ "" →
  PyStr.strip description ≠ "" →
  priority_of_choice choice = Some p →
  float_of text = Some f →
  PrimFloat.leb f 0 = false →
  Main.create_new_task float_of
    (name :: description :: choice :: text :: enter :: rest) s
  = Returns
      (mkSession
         (add_task (world s)
            (mkTask name (JStr description) p (JFloat f) (JBool false)))
         (disk s),
       [Cleared; Heading "Create New Task"; PriorityMenu;
        TaskCreated (length (heap (world s)))],
       rest).
Proof.
  intros Hn Hd Hp Hf Hpos. unfold Main.create_new_task. simpl.
  apply String.eqb_neq in Hn, Hd. rewrite Hn, Hd, Hp. simpl. rewrite Hf.
  by rewrite create_task_typed, Hn, Hpos.
Qed.

(** X15: whenever [create_new_task] returns, either nothing has changed
    and no creation was announced, or exactly the five lines of X14 were
    read and that one task was added. So a blank name, a blank description
    (which [Task] itself would accept), a choice other than 1, 2, 3, a
    duration that is not a float, or one that is [<= 0], each leave the store
    as it was. *)
Theorem create_new_task_changes (inputs : list string) (s s' : Session)
    (out : list screen) (rest : list string) :
  Main.create_new_task float_of inputs s = Returns (s', out, rest) →
  (s' = s ∧ ∀ task, TaskCreated task ∉ out)
  ∨ ∃ name description choice text enter p f,
      inputs = name :: description :: choice :: text :: enter :: rest
      ∧ PyStr.strip name ≠ "" ∧ PyStr.strip description ≠ ""
      ∧ priority_of_choice choice = Some p
      ∧ float_of text = Some f ∧ PrimFloat.leb f 0 = false
      ∧ s' = mkSession
               (add_task (world s)
                  (mkTask name (JStr description) p (JFloat f) (JBool false)))
               (disk s)
      ∧ out = [Cleared; Heading "Create New Task"; PriorityMenu;
               TaskCreated (length (heap (world s)))].
Proof.
  unfold Main.create_new_task. intros H.
  destruct inputs as [| name inputs]; [done |]. simpl in H.
  destruct (String.eqb (PyStr.strip name) "") eqn:Hn.
  { destruct inputs as [| enter inputs]; [done |]. simpl in H.
    injection H as <- <- <-. left. split; [done |]. intros task. not_listed. }
  destruct inputs as [| description inputs]; [done |]. simpl in H.
  destruct (String.eqb (PyStr.strip description) "") eqn:Hd.
  { destruct inputs as [| enter inputs]; [done |]. simpl in H.
    injection H as <- <- <-. left. split; [done |]. intros task. not_listed. }
  destruct inputs as [| choice inputs]; [done |]. simpl in H.
  destruct (priority_of_choice choice) as [p |] eqn:Hp.
  2:{ destruct inputs as [| enter inputs]; [done |]. simpl in H.
      injection H as <- <- <-. left. split; [done |]. intros task. not_listed. }
  destruct inputs as [| text inputs]; [done |]. simpl in H.
  destruct (float_of text) as [f |] eqn:Hf.
  2:{ simpl in H. destruct inputs as [| enter inputs]; [done |]. simpl in H.
      injection H as <- <- <-. left. split; [done |]. intros task. not_listed. }
  rewrite create_task_typed, Hn in H.
  destruct (PrimFloat.leb f 0) eqn:Hpos; simpl in H.
  { destruct inputs as [| enter inputs]; [done |]. simpl in H.
    injection H as <- <- <-. left. split; [done |]. intros task. not_listed. }
  destruct inputs as [| enter inputs]; [done |]. simpl in H.
  injection H as <- <- <-. right.
  exists name, description, choice, text, enter, p, f.
  apply String.eqb_neq in Hn, Hd. split_and!; done.
Qed.


Lemma pomodoro_prompt_task (t t' : Task) (answers : list (option Z))
    (out : list message) :
  pomodoro_prompt t answers = Some (t', out) →
  t' = t
  ∨ (truthy (_is_completed t) = false ∧ t' = (conclude_task t).1
     ∧ CompletedNow (task_name t) ∈ out).
Proof.
  revert t' out. induction answers as [| [n |] answers IH]; intros t' out H;
    simpl in H; [done | |].
  - destruct (n =? 1)%Z.
    + rewrite conclude_task_first in H.
      destruct (truthy (_is_completed t)) eqn:E; simpl in H.
      * injection H as <- <-. by left.
      * injection H as <- <-. right. split_and!; [done | done | by left].
    + destruct (n =? 0)%Z; injection H as <- <-; by left.
  - destruct (pomodoro_prompt t answers) as [[t1 out1] |]; [| done].
    simpl in H. injection H as <- <-.
    destruct (IH t1 out1 eq_refl) as [-> | (Hf & -> & Hin)]; [by left |].
    right. split_and!; [done | done | by right].
Qed.

Lemma unread_length (answers : list (option Z)) (inputs : list string) :
  (length (unread answers inputs) ≤ length inputs)%nat.
Proof.
  revert inputs. induction answers as [| [n |] answers IH]; intros [| a inputs];
    simpl; try lia.
  specialize (IH inputs). lia.
Qed.

Lemma world_eta (w : World) : mkWorld (heap w) (lm w) = w.
Proof. by destruct w. Qed.

Lemma session_eta (s : Session) : mkSession (world s) (disk s) = s.
Proof. by destruct s. Qed.

Lemma menu_pomodoro_cases (inputs : list string) (s s' : Session)
    (out : list screen) (rest : list string) :
  Main.start_pomodoro float_of int_of inputs s = Returns (s', out, rest) →
  lm (world s') = lm (world s)
  ∧ disk s' = disk s
  ∧ (s' = s
     ∨ ∃ name task t,
         head inputs = Some name
         ∧ find_task (world s) name = Returns (Some (task, t))
         ∧ truthy (_is_completed t) = false
         ∧ heap (world s')
           = <[task := (conclude_task t).1]> (heap (world s))
         ∧ Said (CompletedNow name) ∈ out).
Proof.
  unfold Main.start_pomodoro. intros H.
  destruct (show_lists (world s)) as [lists | |]; [| done | done]. simpl in H.
  destruct inputs as [| name inputs]; [done |]. simpl in H.
  destruct (find_task (world s) name) as [[[task t] |] | |] eqn:Hfind;
    [| | done | done]; simpl in H.
  2:{ destruct inputs as [| enter inputs]; [done |]. simpl in H.
      injection H as <- <- <-. split_and!; [done | done | by left]. }
  destruct inputs as [| break_text inputs]; [done |]. simpl in H.
  destruct (float_of break_text) as [break_time |].
  2:{ destruct inputs as [| enter inputs]; [done |]. simpl in H.
      injection H as <- <- <-. split_and!; [done | done | by left]. }
  destruct inputs as [| cycles_text inputs]; [done |]. simpl in H.
  destruct (int_of cycles_text) as [repeat_times |].
  2:{ destruct inputs as [| enter inputs]; [done |]. simpl in H.
      injection H as <- <- <-. split_and!; [done | done | by left]. }
  unfold Task_start_pomodoro, start_pomodoro in H.
  destruct (pomodoro_prompt t _) as [[t' said] |] eqn:Hp; [| done].
  simpl in H. injection H as <- <- <-. simpl.
  destruct (find_task_found _ _ _ _ Hfind) as (Ht & Hname & _).
  split_and!; [done | done |].
  destruct (pomodoro_prompt_task _ _ _ _ Hp) as [-> | (Hf & -> & Hin)].
  - left. rewrite list_insert_id by done. rewrite world_eta. apply session_eta.
  - right. exists name, task, t. split_and!; try done.
    rewrite <- Hname. do 5 right. apply list_elem_of_fmap. eauto.
Qed.

Lemma create_new_task_safe (inputs : list string) (s : Session) :
  reachable (world s) → safe inputs (Main.create_new_task float_of inputs s).
Proof.
  intros Hr. unfold Main.create_new_task.
  destruct inputs as [| name inputs]; [done |]. simpl.
  destruct (String.eqb (PyStr.strip name) "") eqn:Hn.
  { destruct inputs as [| enter inputs]; [done |]. simpl. split; [done | lia]. }
  destruct inputs as [| description inputs]; [done |]. simpl.
  destruct (String.eqb (PyStr.strip description) "") eqn:Hd.
  { destruct inputs as [| enter inputs]; [done |]. simpl. split; [done | lia]. }
  destruct inputs as [| choice inputs]; [done |]. simpl.
  destruct (priority_of_choice choice) as [p |] eqn:Hp.
  2:{ destruct inputs as [| enter inputs]; [done |]. simpl. split; [done | lia]. }
  destruct inputs as [| text inputs]; [done |]. simpl.
  destruct (float_of text) as [f |] eqn:Hf.
  2:{ simpl. destruct inputs as [| enter inputs]; [done |]. simpl.
      split; [done | lia]. }
  pose proof (create_task_typed (world s) name description p f) as Hc.
  rewrite Hn in Hc. rewrite Hc.
  destruct (PrimFloat.leb f 0) eqn:Hpos; simpl.
  { destruct inputs as [| enter inputs]; [done |]. simpl. split; [done | lia]. }
  destruct inputs as [| enter inputs]; [done |]. simpl. split; [| lia].
  by eapply create_task_reachable.
Qed.

Lemma show_lists_no_escape (w : World) (e : exn) : show_lists w ≠ Escapes e.
Proof.
  unfold show_lists.
  destruct (bucket_tasks w LOW); [| done].
  destruct (bucket_tasks w MID); [| done].
  destruct (bucket_tasks w HIGH); done.
Qed.

Lemma find_task_no_escape (w : World) (name : string) (e : exn) :
  find_task w name ≠ Escapes e.
Proof. unfold find_task. by destruct (entries w). Qed.

Lemma delete_task_safe (inputs : list string) (s : Session) :
  reachable (world s) → safe inputs (Main.delete_task inputs s).
Proof.
  intros Hr. unfold Main.delete_task.
  destruct (show_lists (world s)) as [lists | e |] eqn:Hshow; [| | done].
  2:{ by destruct (show_lists_no_escape _ _ Hshow). }
  simpl.
  destruct inputs as [| name inputs]; [done |]. simpl.
  destruct (find_task (world s) name) as [[[task t] |] | e |] eqn:Hfind;
    [| | | done]; simpl.
  3:{ by destruct (find_task_no_escape _ _ _ Hfind). }
  - destruct (find_task_found _ _ _ _ Hfind) as (Ht & _ & _).
    destruct (list_manager (lm (world s)) task t DELETE) as [[m said] | e]
      eqn:Hm.
    + destruct inputs as [| enter inputs]; [done |]. simpl. split; [| lia].
      eapply rtc_r; [exact Hr |]. by eapply step_list_manager.
    + rewrite list_manager_delete in Hm.
      by destruct (contains _ _).
  - destruct inputs as [| enter inputs]; [done |]. simpl. split; [done | lia].
Qed.

Lemma start_pomodoro_safe (inputs : list string) (s : Session) :
  reachable (world s) →
  safe inputs (Main.start_pomodoro float_of int_of inputs s).
Proof.
  intros Hr.
  destruct (Main.start_pomodoro float_of int_of inputs s)
    as [[[s' out] rest] | e |] eqn:H; [| | done].
  - destruct (menu_pomodoro_cases _ _ _ _ _ H) as (Hlm & Hdisk & Hchange).
    split.
    + destruct Hchange as [-> | (name & task & t & _ & Hfind & Hf & Hheap & _)];
        [done |].
      destruct (find_task_found _ _ _ _ Hfind) as (Ht & _ & _).
      eapply rtc_r; [exact Hr |].
      apply (step_conclude _ task _ (conclude_task t).2).
      unfold conclude_at. rewrite Ht. simpl.
      destruct (conclude_task t) as [t1 m1]. simpl in *.
      destruct s' as [[h' m'] d']. simpl in *. by subst.
    + revert H. unfold Main.start_pomodoro.
      destruct (show_lists (world s)) as [lists | |]; [| done | done]. simpl.
      destruct inputs as [| name inputs]; [done |]. simpl.
      destruct (find_task (world s) name) as [[[task t] |] | |];
        [| | done | done]; simpl.
      2:{ destruct inputs as [| enter inputs]; [done |]. simpl.
          intros [= <- <- <-]. lia. }
      destruct inputs as [| break_text inputs]; [done |]. simpl.
      destruct (float_of break_text) as [break_time |].
      2:{ destruct inputs as [| enter inputs]; [done |]. simpl.
          intros [= <- <- <-]. lia. }
      destruct inputs as [| cycles_text inputs]; [done |]. simpl.
      destruct (int_of cycles_text) as [repeat_times |].
      2:{ destruct inputs as [| enter inputs]; [done |]. simpl.
          intros [= <- <- <-]. lia. }
      destruct (Task_start_pomodoro _ _ _ _ _) as [[[timers t'] said] |];
        [| done].
      simpl. intros [= <- <- <-].
      pose proof (unread_length
                    ((λ a, int_of (PyStr.strip a)) <$> inputs) inputs). lia.
  - revert H. unfold Main.start_pomodoro.
    destruct (show_lists (world s)) as [lists | e' |] eqn:Hs; [| | done].
    2:{ by destruct (show_lists_no_escape _ _ Hs). }
    simpl.
    destruct inputs as [| name inputs]; [done |]. simpl.
    destruct (find_task (world s) name) as [[[task t] |] | e' |] eqn:Hf;
      [| | | done]; simpl.
    3:{ by destruct (find_task_no_escape _ _ _ Hf). }
    2:{ by destruct inputs as [| enter inputs]. }
    destruct inputs as [| break_text inputs]; [done |]. simpl.
    destruct (float_of break_text) as [break_time |].
    2:{ by destruct inputs as [| enter inputs]. }
    destruct inputs as [| cycles_text inputs]; [done |]. simpl.
    destruct (int_of cycles_text) as [repeat_times |].
    2:{ by destruct inputs as [| enter inputs]. }
    by destruct (Task_start_pomodoro _ _ _ _ _) as [[[timers t'] said] |].
Qed.

Lemma menu_item_safe (choice : string) (inputs : list string) (s : Session) :
  reachable (world s) →
  safe_item inputs (Main.menu_item float_of int_of writable json_dump choice inputs s).
Proof.
  intros Hr. unfold Main.menu_item.
  destruct (String.eqb choice "1").
  { pose proof (create_new_task_safe inputs s Hr) as H.
    destruct (Main.create_new_task float_of inputs s) as [[[s' out] rest] | |];
      simpl in *; [| done | done].
    destruct H. by split_and!. }
  destruct (String.eqb choice "2").
  { destruct (show_lists (world s)) as [lists | e |] eqn:Hs; [| | done].
    2:{ by destruct (show_lists_no_escape _ _ Hs). }
    simpl. destruct inputs as [| enter inputs]; [done |]. simpl.
    split_and!; [done | lia | done]. }
  destruct (String.eqb choice "3").
  { destruct (save_tasks json_dump (world s) (disk s) writable)
      as [[f [said | e]] |]; [| done | done].
    simpl. destruct inputs as [| enter inputs]; [done |]. simpl.
    split_and!; [done | lia | done]. }
  destruct (String.eqb choice "4").
  { destruct (import_tasks (disk s) (world s)) as [w said] eqn:Hi.
    destruct inputs as [| enter inputs]; [done |]. simpl.
    split_and!; [| lia | done].
    eapply rtc_r; [exact Hr |].
    replace w with (import_tasks (disk s) (world s)).1 by by rewrite Hi.
    apply step_import. }
  destruct (String.eqb choice "5").
  { pose proof (start_pomodoro_safe inputs s Hr) as H.
    destruct (Main.start_pomodoro float_of int_of inputs s)
      as [[[s' out] rest] | |]; simpl in *; [| done | done].
    destruct H. by split_and!. }
  destruct (String.eqb choice "6").
  { pose proof (delete_task_safe inputs s Hr) as H.
    destruct (Main.delete_task inputs s) as [[[s' out] rest] | |];
      simpl in *; [| done | done].
    destruct H. by split_and!. }
  destruct (String.eqb choice "7").
  { simpl. by split_and!. }
  destruct inputs as [| enter inputs]; [done |]. simpl.
  split_and!; [done | lia | done].
Qed.

Lemma main_menu_loop_safe (fuel : nat) (inputs : list string) (s : Session) :
  reachable (world s) →
  match Main.main_menu_loop float_of int_of writable json_dump fuel inputs s
  with
  | Returns (s', out, rest) => reachable (world s') ∧ last out = Some Exiting
  | Escapes _ => True
  | Blocks => True
  end.
Proof.
  revert inputs s. induction fuel as [| fuel IH]; intros inputs s Hr; [done |].
  simpl. destruct inputs as [| choice inputs]; [done |]. simpl.
  pose proof (menu_item_safe choice inputs s Hr) as H.
  destruct (Main.menu_item float_of int_of writable json_dump choice inputs s)
    as [[[[continue s'] out] rest] | |]; simpl in *; [| done | done].
  destruct H as (Hr' & _ & Hbreak).
  destruct continue.
  - specialize (IH rest s' Hr').
    destruct (Main.main_menu_loop float_of int_of writable json_dump fuel rest s')
      as [[[s'' out'] rest'] | |]; simpl in *; [| done | done].
    destruct IH as [Hr'' Hlast]. split; [done |].
    change (last (([Cleared; Menu] ++ out) ++ out') = Some Exiting).
    by rewrite last_app, Hlast.
  - split; [done |]. by rewrite (Hbreak eq_refl).
Qed.

Lemma main_menu_loop_fuel (fuel : nat) (inputs : list string) (s : Session) :
  reachable (world s) → (length inputs ≤ fuel)%nat →
  Main.main_menu_loop float_of int_of writable json_dump fuel inputs s
  = Main.main_menu float_of int_of writable json_dump inputs s.
Proof.
  unfold Main.main_menu. revert inputs s.
  induction fuel as [fuel IH] using lt_wf_ind. intros inputs s Hr Hlen.
  destruct inputs as [| choice inputs].
  { by destruct fuel. }
  destruct fuel as [| fuel]; [simpl in Hlen; lia |].
  simpl in *.
  pose proof (menu_item_safe choice inputs s Hr) as H.
  destruct (Main.menu_item float_of int_of writable json_dump choice inputs s)
    as [[[[continue s'] out] rest] | |]; simpl in *; [| done | done].
  destruct H as (Hr' & Hrest & _).
  destruct continue; [| done].
  rewrite (IH fuel) by (done || lia).
  by rewrite (IH (length inputs)) by (done || lia).
Qed.

(** X16: the only change a Pomodoro run from the menu can make is to
    complete the task it ran for: the three lists and the file are as
    before, and either the whole state is, or the first object with the
    typed name had a false flag, has [True] now, and the completion message
    was printed. *)
Theorem menu_pomodoro_changes (inputs : list string) (s s' : Session)
    (out : list screen) (rest : list string) :
  Main.start_pomodoro float_of int_of inputs s = Returns (s', out, rest) →
  lm (world s') = lm (world s)
  ∧ disk s' = disk s
  ∧ (s' = s
     ∨ ∃ name task t,
         head inputs = Some name
         ∧ find_task (world s) name = Returns (Some (task, t))
         ∧ truthy (_is_completed t) = false
         ∧ heap (world s')
           = <[task := (conclude_task t).1]> (heap (world s))
         ∧ Said (CompletedNow name) ∈ out).
Proof. apply menu_pomodoro_cases. Qed.

(** X17: from a state the program reaches, whatever is typed, whether the
    file can be written and whatever [json.dump] does: when [main_menu]
    returns, the last thing printed is the exit line, and the store is again
    a state the program reaches (so it satisfies the invariant of the
    lists). One turn of the loop per typed line is enough: more turns give
    the same run, whether it returns, lets an exception escape or waits for
    a line. *)
Theorem main_menu_returns (inputs : list string) (s : Session) :
  reachable (world s) →
  (∀ s' out rest,
     Main.main_menu float_of int_of writable json_dump inputs s
     = Returns (s', out, rest) →
     reachable (world s') ∧ store_ok (world s')
     ∧ last out = Some Exiting)
  ∧ (∀ fuel, (length inputs ≤ fuel)%nat →
       Main.main_menu_loop float_of int_of writable json_dump fuel inputs s
       = Main.main_menu float_of int_of writable json_dump inputs s).
Proof.
  intros Hr.
  pose proof (main_menu_loop_safe (length inputs) inputs s Hr) as H.
  fold (Main.main_menu float_of int_of writable json_dump inputs s) in H.
  split.
  - intros s' out rest Hs. rewrite Hs in H. destruct H as [Hr' Hlast].
    split_and!; [done | by apply store_ok_reachable | done].
  - intros fuel Hfuel. by apply main_menu_loop_fuel.
Qed.

(** X18: [main_menu] prints its own success line after [import_tasks] and
    after [save_tasks] whatever they reported. With no file, choice 4 prints
    the not-found message and then that the tasks were imported; with a file
    that cannot be written, choice 3 prints the error of [save_tasks] and
    then that the tasks were saved. Neither changes the state. *)
Theorem menu_announces_success (s : Session) (enter : string)
    (rest : list string) :
  (disk s = NoFile →
   Main.main_menu float_of int_of writable json_dump ("4" :: enter :: "7" :: rest) s
   = Returns (s, [Cleared; Menu; Said FileNotFound; TasksImported;
                  Cleared; Menu; Exiting], rest))
  ∧ (reachable (world s) → writable = false →
     Main.main_menu float_of int_of writable json_dump ("3" :: enter :: "7" :: rest) s
     = Returns (s, [Cleared; Menu; Said SaveError; TasksSaved;
                    Cleared; Menu; Exiting], rest)).
Proof.
  split.
  - intros Hd. unfold Main.main_menu. simpl. unfold Main.menu_item. simpl.
    rewrite Hd. simpl. rewrite <- Hd. by rewrite session_eta.
  - intros Hr ->. unfold Main.main_menu. simpl. unfold Main.menu_item. simpl.
    rewrite (save_tasks_unwritable _ _ _ (store_ok_reachable _ Hr)).
    simpl. by rewrite session_eta.
Qed.

End MenuProofs.

(** X11: the closing question of [Task.start_pomodoro] is asked again after
    every answer that is not an integer, and any integer ends it: 1
    completes the task, 0 prints that the status is unchanged, and every
    other integer ends the run with the task unchanged and nothing
    printed. *)
Theorem pomodoro_prompt_asks_again (self : Task) (k : nat) (n : Z)
    (rest : list (option Z)) :
  pomodoro_prompt self (replicate k None ++ Some n :: rest)
  = Some (if (n =? 1)%Z then (conclude_task self).1 else self,
          replicate k InvalidAnswer
          ++ (if (n =? 1)%Z then [(conclude_task self).2]
              else if (n =? 0)%Z then [StatusUnchanged (task_name self)]
              else [])).
Proof.
  destruct (pomodoro_prompt_returns self k n rest) as (t & out & -> & Hres).
  destruct (n =? 1)%Z; [| destruct (n =? 0)%Z]; by injection Hres as -> ->.
Qed.





Lemma create_new_task_creates_witness :
  Main.create_new_task float_of_example [" report "; "Q3"; "3"; "25"; ""]
    example_session
  = Returns
      (mkSession
         (add_task (world example_session)
            (mkTask " report " (JStr "Q3") HIGH (JFloat 25) (JBool false)))
         (disk example_session),
       [Cleared; Heading "Create New Task"; PriorityMenu;
        TaskCreated (length (heap (world example_session)))],
       []).
Proof.
  apply (create_new_task_creates float_of_example example_session
           " report " "Q3" "3" "25" "" [] HIGH 25%float);
    (reflexivity || discriminate).
Defined.

Lemma create_new_task_changes_witness :
  (example_session = example_session
   ∧ ∀ task, TaskCreated task
             ∉ [Cleared; Heading "Create New Task"; InvalidDescription])
  ∨ ∃ name description choice text enter p f,
      ["report"; "  "; ""] = name :: description :: choice :: text :: enter :: []
      ∧ PyStr.strip name ≠ "" ∧ PyStr.strip description ≠ ""
      ∧ priority_of_choice choice = Some p
      ∧ float_of_example text = Some f ∧ PrimFloat.leb f 0 = false
      ∧ example_session
        = mkSession
            (add_task (world example_session)
               (mkTask name (JStr description) p (JFloat f) (JBool false)))
            (disk example_session)
      ∧ [Cleared; Heading "Create New Task"; InvalidDescription]
        = [Cleared; Heading "Create New Task"; PriorityMenu;
           TaskCreated (length (heap (world example_session)))].
Proof.
  apply (create_new_task_changes float_of_example ["report"; "  "; ""]
           example_session example_session
           [Cleared; Heading "Create New Task"; InvalidDescription] []).
  reflexivity.
Defined.

Lemma menu_pomodoro_changes_witness :
  ∃ s' out,
    Main.start_pomodoro float_of_example int_of_example
      ["report"; "5"; "2"; "x"; " 1 "; "7"] example_session
    = Returns (s', out, ["7"])
    ∧ lm (world s') = lm (world example_session)
    ∧ disk s' = disk example_session
    ∧ heap (world s')
      = [ mkTask "report" (JStr "Q3") HIGH (JFloat 25) (JBool true);
          mkTask "mail" (JStr "") LOW (JInt 10) (JBool true) ].
Proof.
  eexists _, _. split; [reflexivity |].
  destruct (menu_pomodoro_changes float_of_example int_of_example
              ["report"; "5"; "2"; "x"; " 1 "; "7"] example_session _ _ _
              eq_refl) as (Hlm & Hdisk & _).
  split_and!; [exact Hlm | exact Hdisk | reflexivity].
Defined.

Lemma main_menu_returns_witness :
  (∀ s' out rest,
     Main.main_menu float_of_example int_of_example true digit_limit_dump
       ["6"; "mail"; ""; "7"] example_session
     = Returns (s', out, rest) →
     reachable (world s') ∧ store_ok (world s')
     ∧ last out = Some Exiting)
  ∧ (∀ fuel, (length ["6"; "mail"; ""; "7"] ≤ fuel)%nat →
       Main.main_menu_loop float_of_example int_of_example true
         digit_limit_dump fuel ["6"; "mail"; ""; "7"] example_session
       = Main.main_menu float_of_example int_of_example true digit_limit_dump
           ["6"; "mail"; ""; "7"] example_session).
Proof.
  apply (main_menu_returns float_of_example int_of_example true
           digit_limit_dump ["6"; "mail"; ""; "7"] example_session).
  exact reachable_example.
Defined.

(** Choice 3 on a store that [json.dump] refuses: the exception leaves
    [main_menu]. *)
Example main_menu_save_escapes :
  Main.main_menu float_of_example int_of_example true digit_limit_dump
    ["3"; ""; "7"] (mkSession long_world NoFile)
  = Escapes digits_error.
Proof. by vm_compute. Qed.

Example main_menu_delete_mail :
  Main.main_menu float_of_example int_of_example true digit_limit_dump
    ["6"; "mail"; ""; "7"] example_session
  = Returns
      (mkSession
         (mkWorld (heap example_world) (mkManager [] [] [0])) NoFile,
       [Cleared; Menu; Cleared; Heading "Delete Task";
        Lists [mkTask "mail" (JStr "") LOW (JInt 10) (JBool true)] []
          [mkTask "report" (JStr "Q3") HIGH (JFloat 25) (JBool false)];
        Said (Removed "mail" "LOW"); TaskDeleted;
        Cleared; Menu; Exiting],
       []).
Proof. reflexivity. Qed.

(** * Properties of [utils.py] *)

Lemma add_nan (x : float) : Prim2SF (PrimFloat.add x nan) = S754_nan.
Proof.
  rewrite add_spec. replace (Prim2SF nan) with S754_nan by reflexivity.
  unfold SF64add, SFadd. by destruct (Prim2SF x) as [| [] | | [] ? ?].
Qed.

Lemma ltb_nan (x y : float) : Prim2SF y = S754_nan → PrimFloat.ltb x y = false.
Proof.
  intros H. rewrite ltb_spec, H. unfold SFltb, SFcompare.
  by destruct (Prim2SF x) as [| [] | | [] ? ?].
Qed.

(** X19: a duration that is not a number is not refused by [timer_logic]
    and is never counted down: whatever the clock shows, the run reads it
    twice and prints that the time is up. [Task] accepts such a duration, so
    every work interval of such a task ends at once. *)
Theorem timer_logic_nan (message : string) (now t : float)
    (clock : list float) :
  timer_logic message nan (now :: t :: clock) = Some ([TimesUp message], clock)
  ∧ ¬ raised (Task_init (PyData (JStr "report")) (JStr "") (PyPriority HIGH)
                (PyData (JFloat nan))).
Proof.
  split; [| by intros []].
  unfold timer_logic.
  replace (PrimFloat.mul nan 60) with nan by reflexivity.
  replace (PrimFloat.leb nan 0) with false by reflexivity.
  simpl. by rewrite (ltb_nan t _ (add_nan now)).
Qed.

Lemma add_infinity (x : float) :
  finite_reading x = true → Prim2SF (PrimFloat.add x infinity) = S754_infinity false.
Proof.
  unfold finite_reading. intros H. rewrite add_spec.
  replace (Prim2SF infinity) with (S754_infinity false) by reflexivity.
  unfold SF64add, SFadd. by destruct (Prim2SF x) as [| [] | | [] ? ?].
Qed.

Lemma ltb_infinity (x y : float) :
  finite_reading x = true → Prim2SF y = S754_infinity false →
  PrimFloat.ltb x y = true.
Proof.
  unfold finite_reading. intros Hx Hy. rewrite ltb_spec, Hy.
  unfold SFltb, SFcompare. by destruct (Prim2SF x) as [| [] | | [] ? ?].
Qed.

Lemma countdown_infinity (message : string) (end_time : float) (clock : list float) :
  Prim2SF end_time = S754_infinity false →
  Forall (λ t, finite_reading t = true) clock →
  countdown message end_time clock = None.
Proof.
  intros He. revert clock.
  assert (∀ n clock, (length clock ≤ n)%nat →
            Forall (λ t, finite_reading t = true) clock →
            countdown message end_time clock = None) as H.
  { induction n as [| n IH]; intros clock Hlen Hfin.
    - by destruct clock; [| simpl in Hlen; lia].
    - destruct clock as [| now clock]; [done |]. simpl.
      apply Forall_cons in Hfin as [Hnow Hfin].
      rewrite (ltb_infinity _ _ Hnow He).
      destruct clock as [| now' clock]; [done |].
      apply Forall_cons in Hfin as [_ Hfin].
      rewrite IH; [done | simpl in Hlen; lia | done]. }
  intros clock. by apply (H (length clock)).
Qed.

(** X20: with an infinite duration, which [Task] accepts as well, the
    countdown never comes to its end: on every clock of finite readings,
    however long, the run is still counting down when the readings end. *)
Theorem timer_logic_infinity (message : string) (clock : list float) :
  Forall (λ t, finite_reading t = true) clock →
  timer_logic message infinity clock = None
  ∧ ¬ raised (Task_init (PyData (JStr "report")) (JStr "") (PyPriority HIGH)
                (PyData (JFloat infinity))).
Proof.
  intros Hfin. split; [| by intros []].
  unfold timer_logic.
  replace (PrimFloat.mul infinity 60) with infinity by reflexivity.
  replace (PrimFloat.leb infinity 0) with false by reflexivity.
  destruct clock as [| now clock]; [done |].
  apply Forall_cons in Hfin as [Hnow Hfin].
  apply countdown_infinity; [| done]. by apply add_infinity.
Qed.

Lemma timer_logic_infinity_witness :
  timer_logic "Work" infinity
    [1762180000.5%float; 1762180001.5%float; 1762180002.5%float]
  = None
  ∧ ¬ raised (Task_init (PyData (JStr "report")) (JStr "") (PyPriority HIGH)
                (PyData (JFloat infinity))).
Proof.
  apply (timer_logic_infinity "Work"
           [1762180000.5%float; 1762180001.5%float; 1762180002.5%float]).
  repeat constructor.
Defined.

Example timer_logic_runs :
  timer_logic "Work" 0.5%float [100%float; 101%float; 102%float; 130%float]
  = Some ([Remaining "Work" (PrimFloat.div 28 60); TimesUp "Work"], []).
Proof. reflexivity. Qed.

Example timer_logic_refuses :
  timer_logic "Break" (-5)%float [100%float] = Some ([Refused], [100%float]).
Proof. reflexivity. Qed.

(** * The Pomodoro run on a clock *)









(** The run of the example, evaluated: half a minute of work, a minute of
    break, half a minute of work, and the loop returns. *)
Example pomodoro_run_example :
  pomodoro_run (mkTask "report" (JStr "Q3") HIGH (JFloat 0.5) (JBool false))
    (JInt 1) "Break" 2 [100; 101; 102; 131; 131; 200; 200; 240]%float
  = ([ (Work "Work interval for 'report'" (JFloat 0.5),
        [Remaining "Work interval for 'report'" (PrimFloat.div 28 60);
         TimesUp "Work interval for 'report'"]);
       (Break "Break" (JInt 1), [TimesUp "Break"]);
       (Work "Work interval for 'report'" (JFloat 0.5),
        [TimesUp "Work interval for 'report'"]) ],
     Returns []).
Proof. reflexivity. Qed.

